(** * Stocks_Streamlit: the price-series aggregation of [stream.py]

    A shallow embedding of the data-shaping code of the dashboard
    ([fetch_yfinance_data], [Stocks.show_metrics], the ticker parsing and the
    module-level [try]/[except]) together with the properties its
    specification states about it.

    Conventions of the model.
    - A float cell of a DataFrame is a [cell]: [None] is NaN (pandas' missing
      value), [Some q] a finite price.  Arithmetic on finite values is exact
      (rationals); rounding is not modelled.
    - A raised Python exception is the [Raise] branch of [result].
    - The Streamlit calls a function makes are the list of [event]s it
      returns, in call order. *)

From Stdlib Require Import QArith ZArith Lia Ascii.
From stdpp Require Import base list sorting strings gmap.

Local Open Scope Z_scope.
Local Open Scope nat_scope.

(** ** Values *)

(** A float64 cell: [None] is NaN. *)
Abbreviation cell := (option Q).

(** A date of the index (an ordinal; only the order matters). *)
Definition timestamp : Type := Z.

Inductive exn : Type :=
  | KeyError (key : string)
  | ValueError (msg : string)
  | IndexError (msg : string)
  | OverflowError (msg : string)
  | ProviderError (msg : string).

Inductive result (A : Type) : Type :=
  | Ok (a : A)
  | Raise (e : exn).
Arguments Ok {A} a.
Arguments Raise {A} e.

Definition is_ok {A} (r : result A) : bool :=
  match r with Ok _ => true | Raise _ => false end.

(** ** pandas: [Series.rolling(window).mean()] *)

Definition Qsum (l : list Q) : Q := foldr Qplus 0%Q l.

(** The non-NaN observations of a window. *)
Definition observations (w : list cell) : list Q := omap id w.

(** Fixed-size window ending at row [i]: rows [max 0 (i+1-W) .. i]. *)
Definition window_start (W i : nat) : nat := i + 1 - W.
Definition window_end (i : nat) : nat := i + 1.

Definition window (W i : nat) (xs : list cell) : list cell :=
  take (window_end i - window_start W i) (drop (window_start W i) xs).

(** [calc_mean minp nobs sum_x]: a value only with at least [minp]
    observations, and at least one.  The value is the exact mean of the
    observations; pandas' float64 sliding sum rounds it. *)
Definition calc_mean (minp : nat) (w : list cell) : cell :=
  let obs := observations w in
  let nobs := length obs in
  if (minp <=? nobs) && (0 <? nobs)
  then Some (Qsum obs / inject_Z (Z.of_nat nobs))%Q
  else None.

(** [min_periods] is left to its default, the window size. *)
Definition rolling_mean (W : nat) (xs : list cell) : list cell :=
  (λ i, calc_mean W (window W i xs)) <$> seq 0 (length xs).

(** The window sizes pandas can hold: a C [int64], below 2^63. *)
Definition int64_limit : Z := 9223372036854775808%Z.

(** [Series.rolling(window=w)] refuses a negative window, and a window
    that does not fit an [int64] overflows in the conversion. *)
Definition series_rolling_mean (ma_window : Z) (xs : list cell) : result (list cell) :=
  if (ma_window <? 0)%Z
  then Raise (ValueError "window must be an integer 0 or greater")
  else if (int64_limit <=? ma_window)%Z
  then Raise (OverflowError "Python int too large to convert to C long")
  else Ok (rolling_mean (Z.to_nat ma_window) xs).

(** ** The provider's answer and the per-ticker frame *)

(** One day of one ticker in the batched answer. *)
Record Bar : Type := mkBar {
  bar_open : cell;
  bar_high : cell;
  bar_low : cell;
  bar_close : cell;
  bar_volume : cell
}.

(** [yf.download(..., group_by='ticker')]: one date index shared by all
    tickers, with the name the provider gave it (if any), and under each
    ticker key its OHLCV columns. *)
Record RawData : Type := mkRaw {
  rd_index_name : option string;
  rd_index : list timestamp;
  rd_columns : gmap string (list Bar)
}.

(** A row of a frame after [reset_index], with the two added columns.
    [MA = None]: the frame has no MA column; [MA = Some None]: NaN. *)
Record Row : Type := mkRow {
  Date : timestamp;
  Open : cell;
  High : cell;
  Low : cell;
  Close : cell;
  Volume : cell;
  Ticker : string;
  MA : option cell
}.

Abbreviation DataFrame := (list Row).

(** [raw_data[ticker]]: the sub-frame under a top-level column key. *)
Definition getitem (raw_data : RawData) (ticker : string) : result (list timestamp * list Bar) :=
  match rd_columns raw_data !! ticker with
  | Some bars => Ok (rd_index raw_data, bars)
  | None => Raise (KeyError ticker)
  end.

(** The label [reset_index] gives the column it makes of the index: the
    index's name, or ["index"] for an index without one.  The model keeps
    the rows of a frame; this label is the one thing of its column set
    that varies, and it is the same for every frame cut from one answer. *)
Definition index_label (raw_data : RawData) : string :=
  default "index" (rd_index_name raw_data).

(** [.reset_index()] followed by [df["Ticker"] = ticker]. *)
Definition reset_index (ticker : string) (sub : list timestamp * list Bar) : DataFrame :=
  zip_with (λ d b, mkRow d (bar_open b) (bar_high b) (bar_low b) (bar_close b)
                         (bar_volume b) ticker None)
           sub.1 sub.2.

Definition set_MA (r : Row) (m : cell) : Row :=
  mkRow (Date r) (Open r) (High r) (Low r) (Close r) (Volume r) (Ticker r) (Some m).

(** [df["MA"] = ma]: a column as long as the frame. *)
Definition assign_MA (df : DataFrame) (ma : list cell) : DataFrame :=
  zip_with set_MA df ma.

(** The body of the [try] in the loop of [fetch_yfinance_data]. *)
Definition ticker_frame (raw_data : RawData) (show_ma : bool) (ma_window : Z)
    (ticker : string) : result DataFrame :=
  match getitem raw_data ticker with
  | Raise e => Raise e
  | Ok sub =>
      let df := reset_index ticker sub in
      if show_ma then
        match series_rolling_mean ma_window (Close <$> df) with
        | Raise e => Raise e
        | Ok ma => Ok (assign_MA df ma)
        end
      else Ok df
  end.

(** ** Streamlit calls *)

(** A numpy float64 scalar as a metric shows it: division by zero gives an
    infinity or NaN (with a RuntimeWarning), it does not raise. *)
Inductive float64 : Type :=
  | Finite (q : Q)
  | PosInf
  | NegInf
  | NaN.

Inductive figure : Type :=
  | PriceFigure (ticker : string) (x : list timestamp) (close : list cell)
                (ma : option (list (option cell)))
  | VolumeFigure (ticker : string) (x : list timestamp) (volume : list cell).

Inductive event : Type :=
  | st_warning (msg : string)
  | st_error (e : exn)
  | st_metric (label : string) (value : float64) (delta : option float64)
  | st_markdown (body : string)
  | st_selectbox (options : list string)
  | st_plotly_chart (fig : figure)
  | st_download_button (file_name : string) (data : DataFrame).

(** ** [fetch_yfinance_data] *)

(** [pd.concat(df_list, ignore_index=True)]. *)
Definition pd_concat (df_list : list DataFrame) : result DataFrame :=
  match df_list with
  | [] => Raise (ValueError "No objects to concatenate")
  | _ => Ok (concat df_list)
  end.

Definition load_warning (ticker : string) : event :=
  st_warning ("Erro ao carregar dados para " +:+ ticker +:+ ".").

(** The [for ticker in tickers] loop: [df_list] grows by one frame per
    ticker whose [try] body completes; the others leave a warning. *)
Fixpoint fetch_loop (raw_data : RawData) (show_ma : bool) (ma_window : Z)
    (tickers : list string) (df_list : list DataFrame)
    : list event * list DataFrame :=
  match tickers with
  | [] => ([], df_list)
  | ticker :: rest =>
      match ticker_frame raw_data show_ma ma_window ticker with
      | Ok df => fetch_loop raw_data show_ma ma_window rest (df_list ++ [df])
      | Raise _ =>
          let '(evs, out) := fetch_loop raw_data show_ma ma_window rest df_list in
          (load_warning ticker :: evs, out)
      end
  end.

(** The external provider: [yf.download(tickers, start, end, ...)]. *)
Definition provider : Type :=
  list string → timestamp → timestamp → result RawData.

(** The function under [@st.cache_data(ttl=30)]: the decorator memoises it
    by its arguments; this is the body, what every cache miss computes. *)
Definition fetch_yfinance_data (yf_download : provider) (tickers : list string)
    (start_date end_date : timestamp) (show_ma : bool) (ma_window : Z)
    : list event * result DataFrame :=
  match yf_download tickers start_date end_date with
  | Raise e => ([], Raise e)
  | Ok raw_data =>
      let '(evs, df_list) := fetch_loop raw_data show_ma ma_window tickers [] in
      (evs, pd_concat df_list)
  end.

(** ** [Stocks.show_metrics] *)

(** [df[df["Ticker"] == ticker]]. *)
Definition select_ticker (df : DataFrame) (ticker : string) : DataFrame :=
  filter (λ r, Ticker r = ticker) df.

(** [Series.dropna()]. *)
Definition dropna (s : list cell) : list Q := omap id s.

(** [Series.iloc[i]] with Python's negative positions. *)
Definition iloc {A} (s : list A) (i : Z) : result A :=
  let n := Z.of_nat (length s) in
  let j := if (i <? 0)%Z then (n + i)%Z else i in
  if ((0 <=? j) && (j <? n))%Z
  then match s !! Z.to_nat j with
       | Some x => Ok x
       | None => Raise (IndexError "single positional indexer is out-of-bounds")
       end
  else Raise (IndexError "single positional indexer is out-of-bounds").

(** float64 arithmetic on finite operands, in exact arithmetic: the model
    keeps where the code divides by zero (an infinity or NaN, not an
    exception) and leaves out rounding, overflow and the sign of a zero. *)
Definition np_sub (a b : Q) : Q := (a - b)%Q.

Definition np_true_divide (a b : Q) : float64 :=
  if Qeq_bool b 0 then
    match (a ?= 0)%Q with
    | Eq => NaN
    | Gt => PosInf
    | Lt => NegInf
    end
  else Finite (a / b)%Q.

Definition np_times_100 (x : float64) : float64 :=
  match x with
  | Finite q => Finite (q * 100)%Q
  | other => other
  end.

Definition close_series (df_final : DataFrame) (ticker : string) : list Q :=
  dropna (Close <$> select_ticker df_final ticker).

(** First column: the last price, or a warning when the [try] fails. *)
Definition last_price (df_final : DataFrame) (ticker : string) : result Q :=
  iloc (close_series df_final ticker) (-1).

Definition last_price_metric (df_final : DataFrame) (ticker : string) : event :=
  match last_price df_final ticker with
  | Ok p => st_metric (ticker +:+ " - Preço Atual") (Finite p) None
  | Raise _ => st_warning ("Preço não encontrado para " +:+ ticker +:+ ".")
  end.

(** Second column: the variation over the period; [except: pass]. *)
Definition variation (df_final : DataFrame) (ticker : string) : result float64 :=
  let series := close_series df_final ticker in
  match iloc series (-1) with
  | Raise e => Raise e
  | Ok last =>
      match iloc series 0 with
      | Raise e => Raise e
      | Ok first => Ok (np_times_100 (np_true_divide (np_sub last first) first))
      end
  end.

Definition variation_metric (df_final : DataFrame) (ticker : string) : list event :=
  match variation df_final ticker with
  | Ok v => [st_metric (ticker +:+ " - Variação no Período") v (Some v)]
  | Raise _ => []
  end.

Definition show_metrics (tickers : list string) (df_final : DataFrame) : list event :=
  (last_price_metric df_final <$> tickers)
  ++ concat (variation_metric df_final <$> tickers).

(** ** Parsing the ticker input (ASCII text) *)

(** [str.isspace] on the ASCII range: TAB..CR, FS..US and the space. *)
Definition is_space (c : ascii) : bool :=
  let n := nat_of_ascii c in
  ((9 <=? n) && (n <=? 13)) || ((28 <=? n) && (n <=? 32)).

Definition comma : ascii := ","%char.

(** [s.split(",")]: always at least one piece. *)
Fixpoint str_split (sep : ascii) (s : string) : list string :=
  match s with
  | EmptyString => [EmptyString]
  | String c s' =>
      if Ascii.eqb c sep then EmptyString :: str_split sep s'
      else match str_split sep s' with
           | [] => [String c EmptyString]
           | piece :: pieces => String c piece :: pieces
           end
  end.

Fixpoint lstrip (s : string) : string :=
  match s with
  | EmptyString => EmptyString
  | String c s' => if is_space c then lstrip s' else s
  end.

Fixpoint rstrip (s : string) : string :=
  match s with
  | EmptyString => EmptyString
  | String c s' =>
      match rstrip s' with
      | EmptyString => if is_space c then EmptyString else String c EmptyString
      | r => String c r
      end
  end.

Definition strip (s : string) : string := rstrip (lstrip s).

Definition upper_char (c : ascii) : ascii :=
  let n := nat_of_ascii c in
  if (97 <=? n) && (n <=? 122) then ascii_of_nat (n - 32) else c.

Fixpoint upper (s : string) : string :=
  match s with
  | EmptyString => EmptyString
  | String c s' => String (upper_char c) (upper s')
  end.

(** Truth value of a [str]. *)
Definition truthy (s : string) : bool :=
  match s with EmptyString => false | _ => true end.

(** [[t.strip().upper() for t in tickers_input.split(",") if t.strip()]]. *)
Definition parse_tickers (tickers_input : string) : list string :=
  (λ t, upper (strip t)) <$> filter (λ t, truthy (strip t) = true) (str_split comma tickers_input).

(** ** The page: sidebar inputs and the guarded run *)

Record sidebar : Type := mkSidebar {
  tickers_input : string;
  start_date : timestamp;
  end_date : timestamp;
  show_ma : bool;
  slider : Z;
  (** what the user picks in the select box, given its options *)
  pick : list string → string
}.

Definition ma_window (inp : sidebar) : Z :=
  if show_ma inp then slider inp else 20%Z.

Definition plot_graphs (df_final : DataFrame) (show : bool) (selected_ticker : string)
    : list event :=
  let df := select_ticker df_final selected_ticker in
  [ st_plotly_chart (PriceFigure selected_ticker (Date <$> df) (Close <$> df)
                       (if show then Some (MA <$> df) else None));
    st_plotly_chart (VolumeFigure selected_ticker (Date <$> df) (Volume <$> df)) ].

(** [Stocks.plot_graphs] on a table whose index column is labelled
    [label]: [df["Date"]] (line 80) raises [KeyError] before anything is
    drawn unless that label is ["Date"]. *)
Definition Stocks_plot_graphs (label : string) (df_final : DataFrame)
    (show : bool) (selected_ticker : string) : result (list event) :=
  if String.eqb label "Date"
  then Ok (plot_graphs df_final show selected_ticker)
  else Raise (KeyError "Date").

Definition export_data (df_final : DataFrame) : list event :=
  [ st_download_button "dados_acoes.csv" df_final;
    st_download_button "dados_acoes.xlsx" df_final ].

(** The label of the index column of the aggregated table: that of the
    provider's answer to the run's request. *)
Definition table_label (yf_download : provider) (tickers : list string)
    (inp : sidebar) : string :=
  match yf_download tickers (start_date inp) (end_date inp) with
  | Ok raw_data => index_label raw_data
  | Raise _ => "Date"
  end.

(** The module-level [try] ... [except Exception as e: st.error(...)].
    Returns the calls made and [stock_app.df_final] as the run leaves it;
    [Stocks.__init__] sets it to the empty [pd.DataFrame()].  An exception
    of [fetch_data] or of [plot_graphs] ends the [try]: what was shown
    before stays, the error message follows. *)
Definition run (yf_download : provider) (inp : sidebar) : list event * DataFrame :=
  let tickers := parse_tickers (tickers_input inp) in
  let df_init : DataFrame := [] in
  match fetch_yfinance_data yf_download tickers (start_date inp) (end_date inp)
          (show_ma inp) (ma_window inp) with
  | (evs, Raise e) => (evs ++ [st_error e], df_init)
  | (evs, Ok df_final) =>
      let shown :=
        evs ++ show_metrics tickers df_final
            ++ [st_markdown "---"; st_selectbox tickers] in
      match Stocks_plot_graphs (table_label yf_download tickers inp) df_final
              (show_ma inp) (pick inp tickers) with
      | Raise e => (shown ++ [st_error e], df_final)
      | Ok charts =>
          (shown ++ charts ++ [st_markdown "### Exportar dados"]
                 ++ export_data df_final,
           df_final)
      end
  end.

Definition is_warning (e : event) : bool :=
  match e with st_warning _ => true | _ => false end.
Definition is_error (e : event) : bool :=
  match e with st_error _ => true | _ => false end.

(** ** Vocabulary of the specification *)

(** Strictly ascending dates (hence no two equal). *)
Definition ascending (ds : list timestamp) : Prop := StronglySorted Z.lt ds.

(** The frames the loop collects and the tickers it warns about. *)
Definition frame_option (raw_data : RawData) (show : bool) (W : Z)
    (ticker : string) : option DataFrame :=
  match ticker_frame raw_data show W ticker with
  | Ok df => Some df
  | Raise _ => None
  end.

Definition loaded (raw_data : RawData) (show : bool) (W : Z)
    (tickers : list string) : list DataFrame :=
  omap (frame_option raw_data show W) tickers.

Definition failed (raw_data : RawData) (show : bool) (W : Z)
    (tickers : list string) : list string :=
  filter (λ t, is_ok (ticker_frame raw_data show W t) = false) tickers.

(** The ticker list with every occurrence of [t] dropped. *)
Definition without (t : string) (tickers : list string) : list string :=
  filter (λ u, u ≠ t) tickers.

(** A table with the rows of ticker [t] deleted. *)
Definition delete_rows (t : string) (table : DataFrame) : DataFrame :=
  filter (λ r, Ticker r ≠ t) table.

(** A string of whitespace only. *)
Fixpoint blank (s : string) : bool :=
  match s with
  | EmptyString => true
  | String c s' => is_space c && blank s'
  end.

(** An input made of whitespace and commas only. *)
Fixpoint blank_or_commas (s : string) : bool :=
  match s with
  | EmptyString => true
  | String c s' => (is_space c || Ascii.eqb c comma) && blank_or_commas s'
  end.

(** ** Sample data

    A batched answer for two tickers over five days; [AAA] has no close
    on the third day.  Used to run the model on concrete inputs. *)

Definition day (o h l c v : Z) : Bar :=
  mkBar (Some (inject_Z o)) (Some (inject_Z h)) (Some (inject_Z l))
        (Some (inject_Z c)) (Some (inject_Z v)).

Definition gap : Bar := mkBar None None None None None.

Definition sample_raw : RawData :=
  mkRaw (Some "Date") [1; 2; 3; 4; 5]%Z
        {[ "AAA" := [day 9 11 8 10 100; day 10 21 9 20 110; gap;
                     day 38 41 37 40 90; day 40 52 39 50 95];
           "BBB" := [day 4 6 3 5 10; day 5 7 4 6 11; day 6 8 5 7 12;
                     day 7 9 6 8 13; day 8 10 7 9 14] ]}.

Definition frame_of (r : result DataFrame) : DataFrame :=
  match r with Ok df => df | Raise _ => [] end.

Definition sample_AAA : DataFrame :=
  Eval vm_compute in frame_of (ticker_frame sample_raw true 2 "AAA").

Definition sample_BBB : DataFrame :=
  Eval vm_compute in frame_of (ticker_frame sample_raw true 2 "BBB").

Definition sample_provider : provider := λ _ _ _, Ok sample_raw.

(** The table for the request [AAA, ZZZ, BBB]; the provider has no [ZZZ]. *)
Definition sample_table : DataFrame :=
  Eval vm_compute in
    frame_of (fetch_yfinance_data sample_provider ["AAA"; "ZZZ"; "BBB"]
                1%Z 5%Z true 2%Z).2.


Definition sample_zero_first : DataFrame :=
  [ mkRow 1%Z None None None (Some (inject_Z 0)) None "AAA" None;
    mkRow 2%Z None None None (Some (inject_Z 5)) None "AAA" None ].

Definition sample_sidebar (input : string) : sidebar :=
  mkSidebar input 1%Z 5%Z true 2%Z (λ options, default EmptyString (head options)).

(** A provider that refuses an empty request and otherwise answers alike. *)
Definition strict_provider : provider :=
  λ tickers _ _,
    match tickers with
    | [] => Raise (ProviderError "no tickers")
    | _ => Ok sample_raw
    end.

(** ** Further vocabulary *)

(** [sep.join(pieces)]. *)
Fixpoint str_join (sep : ascii) (pieces : list string) : string :=
  match pieces with
  | [] => EmptyString
  | [p] => p
  | p :: ps => p +:+ String sep (str_join sep ps)
  end.

(** The character [c] occurs in [s]. *)
Fixpoint occurs (c : ascii) (s : string) : bool :=
  match s with
  | EmptyString => false
  | String c' s' => Ascii.eqb c' c || occurs c s'
  end.

(** Number of occurrences of [c] in [s]. *)
Fixpoint occurrences (c : ascii) (s : string) : nat :=
  match s with
  | EmptyString => 0
  | String c' s' => (if Ascii.eqb c' c then 1 else 0) + occurrences c s'
  end.

(** A ticker as the parser leaves it: not empty, no comma, no whitespace
    at either end, no lower-case ASCII letter. *)
Definition normal_ticker (t : string) : Prop :=
  t ≠ EmptyString ∧ occurs comma t = false ∧ strip t = t ∧ upper t = t.

(** A row carries the bar [b] of date [d] under ticker [t]. *)
Definition row_of_bar (r : Row) (d : timestamp) (b : Bar) (t : string) : Prop :=
  Date r = d ∧ Open r = bar_open b ∧ High r = bar_high b ∧ Low r = bar_low b
  ∧ Close r = bar_close b ∧ Volume r = bar_volume b ∧ Ticker r = t.

(** A row without its MA cell. *)
Definition drop_MA (r : Row) : Row :=
  mkRow (Date r) (Open r) (High r) (Low r) (Close r) (Volume r) (Ticker r) None.

(** Every column of the answer is as long as its index. *)
Definition aligned (raw_data : RawData) : Prop :=
  ∀ t bars, rd_columns raw_data !! t = Some bars →
            length bars = length (rd_index raw_data).

(** How often a ticker is requested. *)
Definition requests (t : string) (tickers : list string) : nat :=
  length (filter (λ u, u = t) tickers).


(** An answer with an entry of missing bars for [NOD]. *)
Definition nodata_raw : RawData :=
  mkRaw (Some "Date") [1; 2; 3]%Z
        {[ "NOD" := [gap; gap; gap];
           "BBB" := [day 4 6 3 5 10; day 5 7 4 6 11; day 6 8 5 7 12] ]}.

Definition nodata_provider : provider := λ _ _ _, Ok nodata_raw.

(** Answers with the tickers' columns and no row at all: over a named
    date index, and over an index without a name. *)
Definition norows_raw (name : option string) : RawData :=
  mkRaw name [] {[ "AAA" := []; "BBB" := [] ]}.

Definition norows_provider (name : option string) : provider :=
  λ _ _ _, Ok (norows_raw name).

(** Only code points below 128. *)
Fixpoint ascii_text (s : string) : bool :=
  match s with
  | EmptyString => true
  | String c s' => (nat_of_ascii c <? 128) && ascii_text s'
  end.

(** The columns of the provider's answer that make the table, ticker by
    ticker in request order: a ticker without an entry contributes nothing,
    an entry contributes one row per date it has a bar for. *)
Definition answered_bars (raw_data : RawData) (t : string) : list Bar :=
  match rd_columns raw_data !! t with
  | Some bars => take (length (rd_index raw_data)) bars
  | None => []
  end.

Definition answered_dates (raw_data : RawData) (t : string) : list timestamp :=
  match rd_columns raw_data !! t with
  | Some bars => take (length bars) (rd_index raw_data)
  | None => []
  end.

Definition is_chart (e : event) : bool :=
  match e with st_plotly_chart _ => true | _ => false end.
Definition is_download (e : event) : bool :=
  match e with st_download_button _ _ => true | _ => false end.
Definition is_metric (e : event) : bool :=
  match e with st_metric _ _ _ => true | _ => false end.

(** ** The model on concrete inputs *)

Example parse_default_input :
  parse_tickers "petr4.sa, vale3.sa ,,itub4.sa "
  = ["PETR4.SA"; "VALE3.SA"; "ITUB4.SA"].
Proof. reflexivity. Qed.

Example parse_keeps_duplicates :
  parse_tickers "aaa,AAA" = ["AAA"; "AAA"].
Proof. reflexivity. Qed.

Example split_empty_input : str_split comma "" = [""].
Proof. reflexivity. Qed.

Example rolling_mean_with_gap :
  rolling_mean 2 [Some (10 # 1); Some (20 # 1); None; Some (40 # 1); Some (50 # 1)]%Q
  = [None; Some (30 # 2); None; None; Some (90 # 2)]%Q.
Proof. reflexivity. Qed.

Example rolling_mean_window_0 :
  rolling_mean 0 [Some (10 # 1); Some (20 # 1)]%Q = [None; None].
Proof. reflexivity. Qed.

Example negative_window_loads_nothing :
  fetch_yfinance_data sample_provider ["AAA"; "BBB"] 1%Z 5%Z true (-1)%Z
  = ([load_warning "AAA"; load_warning "BBB"],
     Raise (ValueError "No objects to concatenate")).
Proof. vm_compute. reflexivity. Qed.

Example sample_table_tickers :
  Ticker <$> sample_table
  = ["AAA"; "AAA"; "AAA"; "AAA"; "AAA"; "BBB"; "BBB"; "BBB"; "BBB"; "BBB"].
Proof. reflexivity. Qed.

Example variation_sample_BBB :
  variation sample_table "BBB" = Ok (Finite (400 # 5)).
Proof. vm_compute. reflexivity. Qed.

Example variation_zero_first_close :
  variation sample_zero_first "AAA" = Ok PosInf.
Proof. vm_compute. reflexivity. Qed.

Example duplicate_request_repeats_rows :
  Date <$> frame_of (fetch_yfinance_data sample_provider ["BBB"; "BBB"]
                       1%Z 5%Z false 20%Z).2
  = [1; 2; 3; 4; 5; 1; 2; 3; 4; 5]%Z.
Proof. vm_compute. reflexivity. Qed.

(** ** Facts about the rolling window *)

Section Rolling.
Implicit Types (w xs : list cell) (W i k : nat).

Lemma length_observations_le w : length (observations w) ≤ length w.
Proof.
  induction w as [|[q|] w IH]; simpl; lia.
Qed.

Lemma observations_missing w :
  None ∈ w → length (observations w) < length w.
Proof.
  induction w as [|[q|] w IH]; intros Hin.
  - by apply elem_of_nil in Hin.
  - apply elem_of_cons in Hin as [Heq|Hin]; [done|].
    simpl. specialize (IH Hin). lia.
  - simpl. pose proof (length_observations_le w). lia.
Qed.

Lemma length_window W i xs :
  i < length xs → length (window W i xs) = W `min` (i + 1).
Proof.
  intros Hi. unfold window, window_end, window_start.
  rewrite length_take, length_drop. lia.
Qed.

Lemma lookup_window W i xs k :
  k < W `min` (i + 1) → window W i xs !! k = xs !! (i + 1 - W + k).
Proof.
  intros Hk. unfold window, window_end, window_start.
  rewrite lookup_take_lt by lia. by rewrite lookup_drop.
Qed.

Lemma length_rolling_mean W xs : length (rolling_mean W xs) = length xs.
Proof.
  unfold rolling_mean. by rewrite length_fmap, length_seq.
Qed.

Lemma lookup_rolling_mean W xs i :
  i < length xs →
  rolling_mean W xs !! i = Some (calc_mean W (window W i xs)).
Proof.
  intros Hi. unfold rolling_mean.
  rewrite list_lookup_fmap, lookup_seq_lt by done. done.
Qed.

Lemma calc_mean_few minp w :
  length (observations w) < minp → calc_mean minp w = None.
Proof.
  intros Hlt. unfold calc_mean.
  destruct (Nat.leb_spec minp (length (observations w))); [lia|done].
Qed.

(** The window ending at [i] reads nothing after row [i]. *)
Lemma window_take W i xs :
  window W i (take (S i) xs) = window W i xs.
Proof.
  unfold window, window_end, window_start.
  apply list_eq. intros k.
  destruct (decide (k < i + 1 - (i + 1 - W))) as [Hk|Hk].
  - rewrite !lookup_take_lt by lia. rewrite !lookup_drop.
    by rewrite lookup_take_lt by lia.
  - by rewrite !lookup_take_ge by lia.
Qed.
End Rolling.

(** ** Facts about the per-ticker frame *)

Section Frame.
Implicit Types (df : DataFrame) (ma : list cell) (ticker : string).

Lemma length_assign_MA df ma :
  length ma = length df → length (assign_MA df ma) = length df.
Proof.
  intros Hlen. unfold assign_MA. rewrite length_zip_with. lia.
Qed.

Lemma lookup_assign_MA df ma i r m :
  df !! i = Some r → ma !! i = Some m →
  assign_MA df ma !! i = Some (set_MA r m).
Proof.
  intros Hr Hm. unfold assign_MA. rewrite lookup_zip_with, Hr. simpl.
  by rewrite Hm.
Qed.

Lemma Close_assign_MA df ma :
  length ma = length df → Close <$> assign_MA df ma = Close <$> df.
Proof.
  revert ma. induction df as [|r df IH]; intros [|m ma] Hlen; try done.
  cbn. f_equal. apply IH. simpl in Hlen. lia.
Qed.

Lemma Date_assign_MA df ma :
  length ma = length df → Date <$> assign_MA df ma = Date <$> df.
Proof.
  revert ma. induction df as [|r df IH]; intros [|m ma] Hlen; try done.
  cbn. f_equal. apply IH. simpl in Hlen. lia.
Qed.

Lemma Ticker_assign_MA df ma r :
  r ∈ assign_MA df ma → ∃ r0, r0 ∈ df ∧ Ticker r = Ticker r0.
Proof.
  unfold assign_MA. intros Hin.
  apply elem_of_lookup_zip_with in Hin as (i & r0 & m & -> & Hr0 & _).
  exists r0. split; [|done]. by apply list_elem_of_lookup_2 in Hr0.
Qed.

Lemma MA_assign_MA df ma :
  length ma = length df → MA <$> assign_MA df ma = Some <$> ma.
Proof.
  revert ma. induction df as [|r df IH]; intros [|m ma] Hlen; try done.
  cbn. f_equal. apply IH. simpl in Hlen. lia.
Qed.

Lemma Ticker_reset_index ticker sub r :
  r ∈ reset_index ticker sub → Ticker r = ticker.
Proof.
  unfold reset_index. intros Hin.
  by apply elem_of_lookup_zip_with in Hin as (i & d & b & -> & _ & _).
Qed.

Lemma Date_reset_index ticker (idx : list timestamp) (bars : list Bar) :
  Date <$> reset_index ticker (idx, bars) = take (length bars) idx.
Proof.
  unfold reset_index. simpl. revert bars.
  induction idx as [|d idx IH]; intros [|b bars]; try done.
  cbn. f_equal. apply IH.
Qed.

(** What a completed [try] body has produced. *)
Lemma ticker_frame_Ok raw_data show W ticker df :
  ticker_frame raw_data show W ticker = Ok df →
  ∃ bars, rd_columns raw_data !! ticker = Some bars
    ∧ let df0 := reset_index ticker (rd_index raw_data, bars) in
      if show
      then (0 ≤ W < int64_limit)%Z
           ∧ df = assign_MA df0 (rolling_mean (Z.to_nat W) (Close <$> df0))
      else df = df0.
Proof.
  unfold ticker_frame, getitem, series_rolling_mean.
  destruct (rd_columns raw_data !! ticker) as [bars|]; [|done].
  intros Hdf. exists bars. split; [done|]. simpl.
  destruct show.
  - destruct (Z.ltb_spec W 0); [done|].
    destruct (Z.leb_spec int64_limit W); [done|]. split; [done|]. congruence.
  - congruence.
Qed.

Lemma ticker_frame_Raise raw_data show W ticker e :
  ticker_frame raw_data show W ticker = Raise e →
  rd_columns raw_data !! ticker = None
  ∨ (show = true ∧ (W < 0 ∨ int64_limit ≤ W)%Z).
Proof.
  unfold ticker_frame, getitem, series_rolling_mean.
  destruct (rd_columns raw_data !! ticker) as [bars|]; [|by left].
  destruct show; [|done].
  destruct (Z.ltb_spec W 0); [right; split; [done|by left]|].
  destruct (Z.leb_spec int64_limit W); [right; split; [done|by right]|done].
Qed.

(** The MA column is the rolling mean of the frame's own Close column. *)
Lemma ticker_frame_MA raw_data (W : nat) ticker df :
  ticker_frame raw_data true (Z.of_nat W) ticker = Ok df →
  MA <$> df = Some <$> rolling_mean W (Close <$> df).
Proof.
  intros Hdf. apply ticker_frame_Ok in Hdf as (bars & _ & _ & ->).
  rewrite Nat2Z.id.
  rewrite Close_assign_MA, MA_assign_MA;
    by rewrite ?length_rolling_mean, ?length_fmap.
Qed.

Lemma ticker_frame_Ticker raw_data show W ticker df r :
  ticker_frame raw_data show W ticker = Ok df → r ∈ df → Ticker r = ticker.
Proof.
  intros Hdf Hr. apply ticker_frame_Ok in Hdf as (bars & _ & Hdf).
  simpl in Hdf. destruct show.
  - destruct Hdf as [_ ->].
    apply Ticker_assign_MA in Hr as (r0 & Hr0 & ->).
    by apply Ticker_reset_index in Hr0.
  - subst df. by apply Ticker_reset_index in Hr.
Qed.

Lemma ticker_frame_Date raw_data show W ticker df :
  ticker_frame raw_data show W ticker = Ok df →
  ∃ n, Date <$> df = take n (rd_index raw_data).
Proof.
  intros Hdf. apply ticker_frame_Ok in Hdf as (bars & _ & Hdf).
  simpl in Hdf. exists (length bars). destruct show.
  - destruct Hdf as [_ ->].
    rewrite Date_assign_MA by (by rewrite length_rolling_mean, length_fmap).
    apply Date_reset_index.
  - subst df. apply Date_reset_index.
Qed.
End Frame.

(** ** The moving average *)

Lemma frame_MA_lookup (raw_data : RawData) (ticker : string) (W : nat)
    (df : DataFrame) (i : nat) (r : Row) :
  ticker_frame raw_data true (Z.of_nat W) ticker = Ok df →
  df !! i = Some r →
  MA r = Some (calc_mean W (window W i (Close <$> df))).
Proof.
  intros Hdf Hr. apply ticker_frame_MA in Hdf.
  assert (Hi : i < length (Close <$> df)).
  { rewrite length_fmap. by apply lookup_lt_Some in Hr. }
  apply (f_equal (λ l, l !! i)) in Hdf.
  rewrite !list_lookup_fmap, Hr, lookup_rolling_mean in Hdf by done.
  simpl in Hdf. congruence.
Qed.

(** C9. With the moving average switched on, the MA cell at position [i] is
    absent (NaN) for the first [W-1] positions and also whenever one of the
    [W] rows ending at [i] has a missing close: a missing close at row [j]
    blanks the MA at [j], [j+1], ..., [j+W-1]. *)
Theorem missing_close_blanks_moving_average (raw_data : RawData)
    (ticker : string) (W : nat) (df : DataFrame) (i : nat) (r : Row) :
  ticker_frame raw_data true (Z.of_nat W) ticker = Ok df →
  df !! i = Some r →
  (i < W - 1 → MA r = Some None)
  ∧ (∀ j rj, j ≤ i → i < j + W → df !! j = Some rj → Close rj = None →
     MA r = Some None).
Proof.
  intros Hdf Hr.
  pose proof (frame_MA_lookup _ _ _ _ _ _ Hdf Hr) as HMA.
  assert (Hi : i < length (Close <$> df)).
  { rewrite length_fmap. by apply lookup_lt_Some in Hr. }
  pose proof (length_window W i _ Hi) as Hwin.
  split.
  - intros Hlt. rewrite HMA. f_equal. apply calc_mean_few.
    pose proof (length_observations_le (window W i (Close <$> df))). lia.
  - intros j rj Hji Hij Hrj Hclose. rewrite HMA. f_equal.
    apply calc_mean_few.
    assert (Hin : None ∈ window W i (Close <$> df)).
    { apply list_elem_of_lookup. exists (j - (i + 1 - W)).
      rewrite lookup_window by lia.
      replace (i + 1 - W + (j - (i + 1 - W))) with j by lia.
      by rewrite list_lookup_fmap, Hrj, <- Hclose. }
    apply observations_missing in Hin. lia.
Qed.

Lemma missing_close_blanks_moving_average_witness :
  ticker_frame sample_raw true 2 "AAA" = Ok sample_AAA
  ∧ Close <$> sample_AAA !! 2 = Some None
  ∧ MA <$> sample_AAA !! 3 = Some (Some None).
Proof.
  split; [vm_compute; reflexivity|]. split; [reflexivity|].
  destruct (sample_AAA !! 3) as [r|] eqn:Hr; [|vm_compute in Hr; discriminate Hr].
  destruct (sample_AAA !! 2) as [rj|] eqn:Hrj; [|vm_compute in Hrj; discriminate Hrj].
  simpl. f_equal.
  refine (proj2 (missing_close_blanks_moving_average sample_raw "AAA" 2
                   sample_AAA 3 r _ Hr) 2 rj _ _ Hrj _).
  - vm_compute; reflexivity.
  - lia.
  - lia.
  - vm_compute in Hrj. inversion Hrj. reflexivity.
Defined.

(** ** Lists *)

Section Lists.
Context {A : Type}.

Lemma elem_of_concat (x : A) (ls : list (list A)) :
  x ∈ concat ls ↔ ∃ l, x ∈ l ∧ l ∈ ls.
Proof.
  induction ls as [|l ls IH]; simpl.
  - rewrite elem_of_nil. split; [done|]. intros (l & _ & Hl).
    by apply elem_of_nil in Hl.
  - rewrite elem_of_app, IH. split.
    + intros [Hx|(l' & Hx & Hl')].
      * exists l. split; [done|left].
      * exists l'. split; [done|by right].
    + intros (l' & Hx & Hl'). apply elem_of_cons in Hl' as [->|Hl'].
      * by left.
      * right. by exists l'.
Qed.

Lemma filter_all (P : A → Prop) `{!∀ x, Decision (P x)} (l : list A) :
  Forall P l → filter P l = l.
Proof.
  induction 1 as [|x l Hx _ IH]; [done|].
  by rewrite filter_cons_True, IH.
Qed.

Lemma filter_none (P : A → Prop) `{!∀ x, Decision (P x)} (l : list A) :
  Forall (λ x, ¬ P x) l → filter P l = [].
Proof.
  induction 1 as [|x l Hx _ IH]; [done|].
  by rewrite filter_cons_False, IH.
Qed.
End Lists.

(** ** The loop of [fetch_yfinance_data] *)

Section Loop.
Context (raw_data : RawData) (show : bool) (W : Z).
Implicit Types (tickers : list string) (t u : string).

Lemma fetch_loop_spec tickers (df_list : list DataFrame) :
  fetch_loop raw_data show W tickers df_list
  = (load_warning <$> failed raw_data show W tickers,
     df_list ++ loaded raw_data show W tickers).
Proof.
  revert df_list. induction tickers as [|t tickers IH]; intros df_list.
  - by rewrite app_nil_r.
  - unfold failed, loaded in *. cbn [fetch_loop omap list_omap].
    rewrite filter_cons. unfold frame_option at 1.
    destruct (ticker_frame raw_data show W t) as [df|e] eqn:Ht.
    + rewrite IH. rewrite decide_False by done.
      by rewrite <- app_assoc.
    + rewrite IH. by rewrite decide_True by done.
Qed.

Lemma loaded_cons_Ok t tickers df :
  ticker_frame raw_data show W t = Ok df →
  loaded raw_data show W (t :: tickers) = df :: loaded raw_data show W tickers.
Proof.
  intros Ht. unfold loaded. cbn. unfold frame_option at 1. by rewrite Ht.
Qed.

Lemma loaded_cons_Raise t tickers e :
  ticker_frame raw_data show W t = Raise e →
  loaded raw_data show W (t :: tickers) = loaded raw_data show W tickers.
Proof.
  intros Ht. unfold loaded. cbn. unfold frame_option at 1. by rewrite Ht.
Qed.

Lemma elem_of_loaded df tickers :
  df ∈ loaded raw_data show W tickers ↔
  ∃ t, t ∈ tickers ∧ ticker_frame raw_data show W t = Ok df.
Proof.
  unfold loaded. rewrite list_elem_of_omap. unfold frame_option.
  split; intros (t & Ht & Hdf); exists t; split; try done.
  - by destruct (ticker_frame raw_data show W t); simplify_eq.
  - by rewrite Hdf.
Qed.

(** Every row of the table comes from a requested ticker whose frame
    was extracted. *)
Lemma elem_of_concat_loaded r tickers :
  r ∈ concat (loaded raw_data show W tickers) →
  Ticker r ∈ tickers ∧ is_ok (ticker_frame raw_data show W (Ticker r)) = true.
Proof.
  intros Hr. apply elem_of_concat in Hr as (df & Hr & Hdf).
  apply elem_of_loaded in Hdf as (t & Ht & Hdf).
  rewrite (ticker_frame_Ticker _ _ _ _ _ _ Hdf Hr). by rewrite Hdf.
Qed.

Lemma loaded_nil_iff tickers :
  loaded raw_data show W tickers = [] ↔
  ∀ t, t ∈ tickers → is_ok (ticker_frame raw_data show W t) = false.
Proof.
  induction tickers as [|t tickers IH].
  - split; [|done]. intros _ t Ht. by apply elem_of_nil in Ht.
  - destruct (ticker_frame raw_data show W t) as [df|e] eqn:Ht.
    + rewrite (loaded_cons_Ok _ _ _ Ht). split; [done|].
      intros Hall. specialize (Hall t (list_elem_of_here _ _)).
      by rewrite Ht in Hall.
    + rewrite (loaded_cons_Raise _ _ _ Ht), IH. split.
      * intros Hall u Hu. apply elem_of_cons in Hu as [->|Hu]; [|by apply Hall].
        by rewrite Ht.
      * intros Hall u Hu. apply Hall. by right.
Qed.

Lemma select_ticker_frame t df :
  ticker_frame raw_data show W t = Ok df → select_ticker df t = df.
Proof.
  intros Ht. unfold select_ticker. apply filter_all, Forall_forall.
  intros r Hr. by apply (ticker_frame_Ticker _ _ _ _ _ _ Ht).
Qed.

Lemma select_ticker_other t u df :
  ticker_frame raw_data show W u = Ok df → u ≠ t → select_ticker df t = [].
Proof.
  intros Hu Hne. unfold select_ticker. apply filter_none, Forall_forall.
  intros r Hr. by rewrite (ticker_frame_Ticker _ _ _ _ _ _ Hu Hr).
Qed.

Lemma select_ticker_absent t tickers :
  t ∉ tickers → select_ticker (concat (loaded raw_data show W tickers)) t = [].
Proof.
  intros Hnot. unfold select_ticker. apply filter_none, Forall_forall.
  intros r Hr Heq. apply elem_of_concat_loaded in Hr as [Hr _].
  by rewrite Heq in Hr.
Qed.

Lemma select_ticker_app (df1 df2 : DataFrame) t :
  select_ticker (df1 ++ df2) t = select_ticker df1 t ++ select_ticker df2 t.
Proof. apply filter_app. Qed.

(** With no ticker requested twice, the rows of a ticker in the table
    are exactly its frame. *)
Lemma select_ticker_concat_loaded t tickers :
  NoDup tickers →
  select_ticker (concat (loaded raw_data show W tickers)) t
  = if decide (t ∈ tickers)
    then default [] (frame_option raw_data show W t) else [].
Proof.
  induction 1 as [|u tickers Hu Hnd IH].
  - by rewrite decide_False by apply not_elem_of_nil.
  - unfold frame_option in *.
    destruct (ticker_frame raw_data show W u) as [df|e] eqn:Hdf.
    + rewrite (loaded_cons_Ok _ _ _ Hdf). cbn [concat].
      rewrite select_ticker_app. destruct (decide (u = t)) as [->|Hne].
      * rewrite (select_ticker_frame _ _ Hdf), select_ticker_absent by done.
        rewrite decide_True by left. by rewrite Hdf, app_nil_r.
      * rewrite (select_ticker_other _ _ _ Hdf Hne), IH. simpl.
        destruct (decide (t ∈ tickers)).
        -- by rewrite decide_True by (by right).
        -- rewrite decide_False; [done|]. by intros [?|?]%elem_of_cons.
    + rewrite (loaded_cons_Raise _ _ _ Hdf), IH.
      destruct (decide (u = t)) as [->|Hne].
      * rewrite decide_False by done. rewrite decide_True by left.
        by rewrite Hdf.
      * destruct (decide (t ∈ tickers)).
        -- by rewrite decide_True by (by right).
        -- rewrite decide_False; [done|]. by intros [?|?]%elem_of_cons.
Qed.

(** The Ticker column: one run per requested ticker, in request order. *)
Lemma Ticker_concat_loaded tickers :
  Ticker <$> concat (loaded raw_data show W tickers)
  = tickers ≫= (λ t, replicate
                        (length (default [] (frame_option raw_data show W t))) t).
Proof.
  induction tickers as [|t tickers IH]; [done|].
  rewrite bind_cons, <- IH. unfold frame_option.
  destruct (ticker_frame raw_data show W t) as [df|e] eqn:Hdf.
  - rewrite (loaded_cons_Ok _ _ _ Hdf). cbn [concat]. rewrite fmap_app.
    f_equal. simpl. apply list_eq. intros i.
    rewrite list_lookup_fmap.
    destruct (df !! i) as [r|] eqn:Hr; simpl.
    + symmetry. apply lookup_replicate. split.
      * apply (ticker_frame_Ticker _ _ _ _ _ _ Hdf).
        by apply list_elem_of_lookup_2 in Hr.
      * by apply lookup_lt_Some in Hr.
    + symmetry. apply lookup_replicate_None. by apply lookup_ge_None in Hr.
  - by rewrite (loaded_cons_Raise _ _ _ Hdf).
Qed.
End Loop.

Lemma pd_concat_Ok (df_list : list DataFrame) (table : DataFrame) :
  pd_concat df_list = Ok table ↔ df_list ≠ [] ∧ table = concat df_list.
Proof.
  destruct df_list as [|df df_list]; simpl.
  - split; [done|]. by intros [? _].
  - split; [intros [= <-]; done | intros [_ ->]; done].
Qed.

Lemma fetch_yfinance_data_answered (yf_download : provider)
    (tickers : list string) (s e : timestamp) (show : bool) (W : Z)
    (raw_data : RawData) :
  yf_download tickers s e = Ok raw_data →
  fetch_yfinance_data yf_download tickers s e show W
  = (load_warning <$> failed raw_data show W tickers,
     pd_concat (loaded raw_data show W tickers)).
Proof.
  intros Hraw. unfold fetch_yfinance_data. rewrite Hraw.
  by rewrite fetch_loop_spec.
Qed.

Lemma ascending_take (n : nat) (ds : list timestamp) :
  ascending ds → ascending (take n ds).
Proof.
  unfold ascending. intros Hs. revert n.
  induction Hs as [|d ds Hs IH Hd]; intros [|n]; simpl; try constructor.
  - apply IH.
  - eapply Forall_impl; [|done]. apply Forall_forall. intros x Hx.
    apply Forall_forall with (x := x) in Hd; [done|].
    apply elem_of_take in Hx as (i & Hx & _).
    by apply list_elem_of_lookup_2 in Hx.
Qed.

(** ** The aggregated table *)

Lemma ticker_frame_getitem (raw_data raw_data' : RawData) (show : bool) (W : Z)
    (t : string) :
  getitem raw_data' t = getitem raw_data t →
  ticker_frame raw_data' show W t = ticker_frame raw_data show W t.
Proof. unfold ticker_frame. by intros ->. Qed.


Lemma ticker_frame_ascending (raw_data : RawData) (show : bool) (W : Z)
    (t : string) (df : DataFrame) :
  ascending (rd_index raw_data) →
  ticker_frame raw_data show W t = Ok df →
  ascending (Date <$> df).
Proof.
  intros Hidx Hdf. apply ticker_frame_Date in Hdf as [n ->].
  by apply ascending_take.
Qed.

Lemma concat_groups (raw_data : RawData) (show : bool) (W : Z)
    (tickers : list string) :
  concat ((λ t, default [] (frame_option raw_data show W t)) <$> tickers)
  = concat (loaded raw_data show W tickers).
Proof.
  induction tickers as [|t tickers IH]; [done|].
  cbn [fmap list_fmap concat]. rewrite IH. unfold frame_option at 1.
  destruct (ticker_frame raw_data show W t) as [df|e] eqn:Hdf.
  - by rewrite (loaded_cons_Ok _ _ _ _ _ _ Hdf).
  - by rewrite (loaded_cons_Raise _ _ _ _ _ _ Hdf).
Qed.

(** C3. When the provider's date index is strictly ascending and the
    aggregation returns a table, the table is the concatenation of one group
    of rows per requested ticker, in request order (a ticker that could not
    be loaded has the empty group), every row of a group carries the group's
    ticker, and the dates of a group are strictly ascending.  For a ticker
    list without repetition (an ordered set, as the contract has it), the
    rows selected by any ticker value have strictly ascending dates. *)
Theorem table_grouped_by_ticker_dates_ascending (yf_download : provider)
    (tickers : list string) (s e : timestamp) (show : bool) (W : Z)
    (raw_data : RawData) (table : DataFrame) :
  yf_download tickers s e = Ok raw_data →
  ascending (rd_index raw_data) →
  (fetch_yfinance_data yf_download tickers s e show W).2 = Ok table →
  (∃ groups : list DataFrame,
     table = concat groups
     ∧ Forall2 (λ t g, Forall (λ r, Ticker r = t) g ∧ ascending (Date <$> g))
               tickers groups)
  ∧ (NoDup tickers → ∀ t, ascending (Date <$> select_ticker table t)).
Proof.
  intros Hraw Hidx Hres.
  rewrite (fetch_yfinance_data_answered _ _ _ _ show W _ Hraw) in Hres.
  simpl in Hres. apply pd_concat_Ok in Hres as [_ ->]. split.
  - exists ((λ t, default [] (frame_option raw_data show W t)) <$> tickers).
    split; [by rewrite concat_groups|].
    apply Forall2_fmap_r, Forall_Forall2_diag, Forall_forall.
    intros t _. unfold compose, frame_option.
    destruct (ticker_frame raw_data show W t) as [df|err] eqn:Hdf; simpl.
    + split.
      * apply Forall_forall. intros r Hr.
        by apply (ticker_frame_Ticker _ _ _ _ _ _ Hdf).
      * by apply (ticker_frame_ascending _ _ _ _ _ Hidx Hdf).
    + split; constructor.
  - intros Hnd t. rewrite select_ticker_concat_loaded by done.
    case_decide; [|constructor]. unfold frame_option.
    destruct (ticker_frame raw_data show W t) as [df|err] eqn:Hdf; simpl.
    + by apply (ticker_frame_ascending _ _ _ _ _ Hidx Hdf).
    + constructor.
Qed.

Lemma table_grouped_by_ticker_dates_ascending_witness :
  (fetch_yfinance_data sample_provider ["AAA"; "ZZZ"; "BBB"] 1%Z 5%Z true 2%Z).2
  = Ok sample_table
  ∧ ascending (Date <$> select_ticker sample_table "BBB").
Proof.
  assert (Hres : (fetch_yfinance_data sample_provider ["AAA"; "ZZZ"; "BBB"]
                    1%Z 5%Z true 2%Z).2 = Ok sample_table)
    by (vm_compute; reflexivity).
  split; [exact Hres|].
  refine (proj2 (table_grouped_by_ticker_dates_ascending sample_provider
                   ["AAA"; "ZZZ"; "BBB"] 1%Z 5%Z true 2%Z sample_raw sample_table
                   eq_refl _ Hres) _ "BBB").
  - unfold ascending. simpl. repeat constructor; lia.
  - apply (bool_decide_unpack _). vm_compute. exact I.
Defined.



(** ** Dropping a ticker *)

Section Drop.
Context (raw_data raw_data' : RawData) (show : bool) (W : Z) (t : string).

Lemma delete_rows_own (df : DataFrame) :
  ticker_frame raw_data show W t = Ok df → delete_rows t df = [].
Proof.
  intros Hdf. unfold delete_rows. apply filter_none, Forall_forall.
  intros r Hr Hne. by apply Hne, (ticker_frame_Ticker _ _ _ _ _ _ Hdf).
Qed.

Lemma delete_rows_other (u : string) (df : DataFrame) :
  ticker_frame raw_data show W u = Ok df → u ≠ t → delete_rows t df = df.
Proof.
  intros Hdf Hne. unfold delete_rows. apply filter_all, Forall_forall.
  intros r Hr. by rewrite (ticker_frame_Ticker _ _ _ _ _ _ Hdf Hr).
Qed.

Lemma loaded_without (tickers : list string) :
  (∀ u, u ∈ tickers → u ≠ t → getitem raw_data' u = getitem raw_data u) →
  loaded raw_data' show W (without t tickers)
  = loaded raw_data show W (without t tickers).
Proof.
  intros Hsame. unfold loaded, without.
  induction tickers as [|u tickers IH]; [done|].
  rewrite filter_cons. case_decide as Hne.
  - cbn [omap list_omap]. rewrite IH by (intros; apply Hsame; [by right|done]).
    unfold frame_option at 1 3.
    rewrite (ticker_frame_getitem raw_data raw_data'); [done|].
    apply Hsame; [by left|done].
  - apply IH. intros; apply Hsame; [by right|done].
Qed.

Lemma concat_loaded_without (tickers : list string) :
  concat (loaded raw_data show W (without t tickers))
  = delete_rows t (concat (loaded raw_data show W tickers)).
Proof.
  induction tickers as [|u tickers IH]; [done|].
  unfold without in *. rewrite filter_cons.
  destruct (ticker_frame raw_data show W u) as [df|err] eqn:Hu.
  - rewrite (loaded_cons_Ok _ _ _ _ _ _ Hu). cbn [concat].
    unfold delete_rows at 1. rewrite filter_app.
    fold (delete_rows t df).
    fold (delete_rows t (concat (loaded raw_data show W tickers))).
    case_decide as Hne.
    + rewrite (loaded_cons_Ok _ _ _ _ _ _ Hu). cbn [concat].
      by rewrite IH, (delete_rows_other _ _ Hu Hne).
    + subst u.
      by rewrite IH, (delete_rows_own _ Hu).
  - rewrite (loaded_cons_Raise _ _ _ _ _ _ Hu), <- IH.
    case_decide; [|done]. by rewrite (loaded_cons_Raise _ _ _ _ _ _ Hu).
Qed.
End Drop.

(** C8 (as the code has it). Take a request that returns a table, and the
    same request with ticker [t] dropped, the provider answering the same
    for every other ticker.  If one of the remaining tickers can be loaded,
    the second request returns the first table with the rows of [t] deleted,
    every other row (moving average included) unchanged.  If none can,
    the second request raises where the first table minus [t] is empty. *)
Theorem dropping_ticker_deletes_its_rows (yf_download : provider)
    (tickers : list string) (t : string) (s e : timestamp) (show : bool) (W : Z)
    (raw_data raw_data' : RawData) (table : DataFrame) :
  yf_download tickers s e = Ok raw_data →
  yf_download (without t tickers) s e = Ok raw_data' →
  (∀ u, u ∈ tickers → u ≠ t → getitem raw_data' u = getitem raw_data u) →
  (fetch_yfinance_data yf_download tickers s e show W).2 = Ok table →
  ((∃ u, u ∈ tickers ∧ u ≠ t ∧ is_ok (ticker_frame raw_data show W u) = true) →
   (fetch_yfinance_data yf_download (without t tickers) s e show W).2
   = Ok (delete_rows t table))
  ∧ ((∀ u, u ∈ tickers → u ≠ t → is_ok (ticker_frame raw_data show W u) = false) →
     (fetch_yfinance_data yf_download (without t tickers) s e show W).2
     = Raise (ValueError "No objects to concatenate")
     ∧ delete_rows t table = []).
Proof.
  intros Hraw Hraw' Hsame Htable.
  rewrite (fetch_yfinance_data_answered _ _ _ _ show W _ Hraw) in Htable.
  rewrite (fetch_yfinance_data_answered _ _ _ _ show W _ Hraw').
  simpl in *. apply pd_concat_Ok in Htable as [_ ->].
  rewrite (loaded_without _ _ _ _ _ _ Hsame).
  split.
  - intros (u & Hu & Hne & Hok). apply pd_concat_Ok. split.
    + intros Hnil.
      pose proof (proj1 (loaded_nil_iff _ _ _ _) Hnil u) as Hno.
      rewrite Hno in Hok; [done|]. unfold without.
      by apply list_elem_of_filter.
    + symmetry. apply concat_loaded_without.
  - intros Hall.
    assert (Hnil : loaded raw_data show W (without t tickers) = []).
    { apply loaded_nil_iff. intros u Hu. unfold without in Hu.
      apply list_elem_of_filter in Hu as [Hne Hu]. by apply Hall. }
    split; [by rewrite Hnil|].
    by rewrite <- concat_loaded_without, Hnil.
Qed.

Lemma dropping_ticker_deletes_its_rows_witness :
  (fetch_yfinance_data sample_provider ["ZZZ"; "BBB"] 1%Z 5%Z true 2%Z).2
  = Ok (delete_rows "AAA" sample_table).
Proof.
  refine (proj1 (dropping_ticker_deletes_its_rows sample_provider
                   ["AAA"; "ZZZ"; "BBB"] "AAA" 1%Z 5%Z true 2%Z
                   sample_raw sample_raw sample_table eq_refl eq_refl _ _) _).
  - intros u _ _. reflexivity.
  - vm_compute. reflexivity.
  - exists "BBB". split; [|split].
    + apply (bool_decide_unpack _). vm_compute. exact I.
    + discriminate.
    + vm_compute. reflexivity.
Defined.

(** C8 as stated fails: with [AAA] loaded and [ZZZ] unknown to the provider,
    the request [AAA, ZZZ] returns the rows of [AAA]; dropping [AAA] does not
    return that table minus its [AAA] rows (the empty table), it raises. *)
Lemma dropping_ticker_can_raise :
  ¬ (∀ (yf_download : provider) (tickers : list string) (t : string)
       (s e : timestamp) (show : bool) (W : Z)
       (raw_data raw_data' : RawData) (table : DataFrame),
       yf_download tickers s e = Ok raw_data →
       yf_download (without t tickers) s e = Ok raw_data' →
       (∀ u, u ∈ tickers → u ≠ t → getitem raw_data' u = getitem raw_data u) →
       t ∈ tickers →
       (fetch_yfinance_data yf_download tickers s e show W).2 = Ok table →
       (fetch_yfinance_data yf_download (without t tickers) s e show W).2
       = Ok (delete_rows t table)).
Proof.
  intros Hclaim.
  specialize (Hclaim sample_provider ["AAA"; "ZZZ"] "AAA" 1%Z 5%Z true 2%Z
                sample_raw sample_raw sample_AAA eq_refl eq_refl).
  assert (Hsame : ∀ u, u ∈ ["AAA"; "ZZZ"] → u ≠ "AAA" →
                       getitem sample_raw u = getitem sample_raw u) by done.
  assert (Hin : "AAA" ∈ ["AAA"; "ZZZ"]) by left.
  assert (Hfirst : (fetch_yfinance_data sample_provider ["AAA"; "ZZZ"]
                      1%Z 5%Z true 2%Z).2 = Ok sample_AAA)
    by (vm_compute; reflexivity).
  specialize (Hclaim Hsame Hin Hfirst).
  vm_compute in Hclaim. discriminate Hclaim.
Qed.

(** ** Parsing the ticker input *)

Section Parsing.
Implicit Types (s p : string) (c : ascii).

Lemma str_split_cons sep s : ∃ p ps, str_split sep s = p :: ps.
Proof.
  destruct s as [|c s]; simpl; [by eexists _, _|].
  destruct (Ascii.eqb c sep); [by eexists _, _|].
  destruct (str_split sep s); by eexists _, _.
Qed.

Lemma rstrip_empty s : rstrip s = EmptyString ↔ blank s = true.
Proof.
  induction s as [|c s IH]; simpl; [done|].
  destruct (rstrip s) as [|c' r] eqn:Hr.
  - destruct (is_space c); simpl; [|done].
    split; intros _; [by apply IH|done].
  - split; [done|]. intros [_ Hb]%andb_prop. by apply IH in Hb.
Qed.

Lemma blank_lstrip s : blank (lstrip s) = blank s.
Proof.
  induction s as [|c s IH]; simpl; [done|].
  destruct (is_space c) eqn:Hc; simpl; [done|]. by rewrite Hc.
Qed.

(** A piece is kept unless it is blank. *)
Lemma truthy_strip s : truthy (strip s) = negb (blank s).
Proof.
  unfold strip. rewrite <- (blank_lstrip s).
  destruct (rstrip (lstrip s)) as [|c r] eqn:Hr; simpl.
  - apply rstrip_empty in Hr. by rewrite Hr.
  - destruct (blank (lstrip s)) eqn:Hb; [|done].
    apply rstrip_empty in Hb. congruence.
Qed.

Lemma str_split_blank s :
  blank_or_commas s = true ↔
  Forall (λ p, blank p = true) (str_split comma s).
Proof.
  induction s as [|c s IH]; simpl.
  - split; [|done]. intros _. by repeat constructor.
  - destruct (Ascii.eqb c comma) eqn:Hc.
    + rewrite orb_true_r. simpl. rewrite IH. split.
      * intros Hall. by constructor.
      * by inversion 1.
    + rewrite orb_false_r.
      destruct (str_split_cons comma s) as (p & ps & Hs).
      rewrite Hs in *. rewrite andb_true_iff, IH. split.
      * intros [Hsp Hall]. inversion Hall; subst.
        constructor; [|done]. simpl. by rewrite Hsp.
      * inversion 1 as [|? ? Hb Hps]; subst. simpl in Hb.
        apply andb_prop in Hb as [Hsp Hb]. split; [done|].
        by constructor.
Qed.

(** No ticker is parsed exactly from the inputs of blanks and commas. *)
Lemma parse_tickers_nil s :
  parse_tickers s = [] ↔ blank_or_commas s = true.
Proof.
  unfold parse_tickers. rewrite str_split_blank. split.
  - intros Hnil. apply fmap_nil_inv in Hnil. apply Forall_forall.
    intros p Hp. destruct (blank p) eqn:Hb; [done|]. exfalso.
    assert (Hin : p ∈ filter (λ t, truthy (strip t) = true) (str_split comma s)).
    { apply list_elem_of_filter. split; [|done].
      by rewrite truthy_strip, Hb. }
    rewrite Hnil in Hin. by apply elem_of_nil in Hin.
  - intros Hall. rewrite filter_none; [done|].
    eapply Forall_impl; [exact Hall|]. intros p Hb. simpl.
    rewrite truthy_strip, Hb. done.
Qed.
End Parsing.

(** ** The guarded run *)


Lemma failed_all (raw_data : RawData) (show : bool) (W : Z) (tickers : list string) :
  (∀ t, t ∈ tickers → is_ok (ticker_frame raw_data show W t) = false) →
  failed raw_data show W tickers = tickers.
Proof.
  intros Hall. unfold failed. apply filter_all, Forall_forall. done.
Qed.



(** C10. An input of whitespace and commas parses to the empty ticker list;
    the aggregation then never returns a table (not even an empty one): the
    concatenation of no frame raises (or the provider already has), and the
    run shows that exception as its one error message and nothing else. *)
Theorem empty_ticker_list_raises (yf_download : provider) (inp : sidebar) :
  blank_or_commas (tickers_input inp) = true →
  parse_tickers (tickers_input inp) = []
  ∧ ∃ e,
      fetch_yfinance_data yf_download [] (start_date inp) (end_date inp)
        (show_ma inp) (ma_window inp) = ([], Raise e)
      ∧ run yf_download inp = ([st_error e], [])
      ∧ (is_ok (yf_download [] (start_date inp) (end_date inp)) = true →
         e = ValueError "No objects to concatenate").
Proof.
  intros Hblank. apply parse_tickers_nil in Hblank as Hnil.
  split; [done|]. unfold run, fetch_yfinance_data. rewrite Hnil.
  destruct (yf_download [] (start_date inp) (end_date inp)) as [raw_data|e].
  - by exists (ValueError "No objects to concatenate").
  - by exists e.
Qed.

Lemma empty_ticker_list_raises_witness :
  parse_tickers " , ,, " = []
  ∧ run sample_provider (sample_sidebar " , ,, ")
    = ([st_error (ValueError "No objects to concatenate")], []).
Proof.
  destruct (empty_ticker_list_raises sample_provider (sample_sidebar " , ,, "))
    as (Hnil & e & _ & Hrun & He).
  - vm_compute. reflexivity.
  - split; [exact Hnil|]. rewrite Hrun, He; reflexivity.
Defined.

(** ** The metrics *)

Section Metrics.
Context {A : Type}.
Implicit Types (s : list A).

Lemma iloc_last s :
  iloc s (-1)
  = match last s with
    | Some x => Ok x
    | None => Raise (IndexError "single positional indexer is out-of-bounds")
    end.
Proof.
  unfold iloc. rewrite last_lookup. simpl.
  destruct s as [|x s]; [done|].
  cbn [length]. rewrite Nat2Z.inj_succ.
  destruct (Z.leb_spec 0 (Z.succ (Z.of_nat (length s)) + -1)); [|lia].
  destruct (Z.ltb_spec (Z.succ (Z.of_nat (length s)) + -1)
              (Z.succ (Z.of_nat (length s)))); [|lia].
  simpl.
  replace (Z.to_nat (Z.succ (Z.of_nat (length s)) + -1)) with (length s) by lia.
  done.
Qed.

Lemma iloc_first s :
  iloc s 0
  = match head s with
    | Some x => Ok x
    | None => Raise (IndexError "single positional indexer is out-of-bounds")
    end.
Proof.
  unfold iloc. destruct s as [|x s]; [done|].
  cbn [length]. rewrite Nat2Z.inj_succ. simpl.
  destruct (Z.ltb_spec 0 (Z.succ (Z.of_nat (length s)))); [done|lia].
Qed.
End Metrics.

Lemma dropna_none (col : list cell) :
  Forall (λ c, c = None) col → dropna col = [].
Proof.
  induction 1 as [|c col -> _ IH]; [done|]. exact IH.
Qed.

Lemma close_series_split (df_final : DataFrame) (ticker : string)
    (pre post : DataFrame) (r : Row) (p : Q) :
  select_ticker df_final ticker = pre ++ r :: post →
  Close r = Some p →
  Forall (λ r', Close r' = None) post →
  close_series df_final ticker = dropna (Close <$> pre) ++ [p].
Proof.
  intros Hsel Hr Hpost. unfold close_series, dropna. rewrite Hsel.
  rewrite fmap_app, omap_app. f_equal. cbn. rewrite Hr. simpl. f_equal.
  apply dropna_none, Forall_fmap. done.
Qed.

Lemma last_valid_split (rows : DataFrame) :
  Forall (λ r, Close r = None) rows
  ∨ ∃ pre r post p, rows = pre ++ r :: post ∧ Close r = Some p
                    ∧ Forall (λ r', Close r' = None) post.
Proof.
  induction rows as [|x rows IH] using rev_ind; [by left|].
  destruct (Close x) as [p|] eqn:Hx.
  - right. by exists rows, x, [], p.
  - destruct IH as [Hnone|(pre & r & post & p & -> & Hr & Hpost)].
    + left. apply Forall_app. split; [done|]. by constructor.
    + right. exists pre, r, (post ++ [x]), p.
      split; [by rewrite <- app_assoc|]. split; [done|].
      apply Forall_app. split; [done|]. by constructor.
Qed.

(** C6. The last-price metric shows the close of the last row of the
    ticker's subset that has a close, which with ascending dates is the
    latest such row; when the subset has no row with a close (in particular
    when it is empty) the same call reports the "not found" warning, and
    nothing is raised.  One of the two cases always applies. *)
Theorem last_price_is_last_valid_close (df_final : DataFrame) (ticker : string) :
  ((∀ r, r ∈ select_ticker df_final ticker → Close r = None) →
   last_price_metric df_final ticker
   = st_warning ("Preço não encontrado para " +:+ ticker +:+ "."))
  ∧ (∀ pre r post p,
       select_ticker df_final ticker = pre ++ r :: post →
       Close r = Some p →
       Forall (λ r', Close r' = None) post →
       last_price_metric df_final ticker
       = st_metric (ticker +:+ " - Preço Atual") (Finite p) None
       ∧ (ascending (Date <$> select_ticker df_final ticker) →
          ∀ r', r' ∈ select_ticker df_final ticker → is_Some (Close r') →
                (Date r' ≤ Date r)%Z))
  ∧ ((∀ r, r ∈ select_ticker df_final ticker → Close r = None)
     ∨ ∃ pre r post p,
         select_ticker df_final ticker = pre ++ r :: post
         ∧ Close r = Some p ∧ Forall (λ r', Close r' = None) post).
Proof.
  split; [|split].
  3: { destruct (last_valid_split (select_ticker df_final ticker)) as [Hn|Hs];
         [left|by right].
       by apply Forall_forall. }
  - intros Hnone. unfold last_price_metric, last_price, close_series.
    rewrite dropna_none, iloc_last; [done|].
    apply Forall_fmap, Forall_forall. done.
  - intros pre r post p Hsel Hr Hpost. split.
    + unfold last_price_metric, last_price.
      rewrite (close_series_split _ _ _ _ _ _ Hsel Hr Hpost).
      by rewrite iloc_last, last_snoc.
    + rewrite Hsel. intros Hasc r' Hr' [q Hq].
      apply elem_of_app in Hr' as [Hr'|Hr'].
      * rewrite fmap_app in Hasc. unfold ascending in Hasc.
        apply Z.lt_le_incl.
        apply (StronglySorted_app_1_elem_of _ _ _ _ _ Hasc).
        -- by apply list_elem_of_fmap_2.
        -- rewrite fmap_cons. left.
      * apply elem_of_cons in Hr' as [->|Hr']; [done|].
        apply Forall_forall with (x := r') in Hpost; [|done]. congruence.
Qed.

Lemma last_price_is_last_valid_close_witness :
  last_price_metric sample_table "AAA"
  = st_metric "AAA - Preço Atual" (Finite (inject_Z 50)) None.
Proof.
  assert (Hsel : ∃ pre r, select_ticker sample_table "AAA" = pre ++ r :: []
                          ∧ Close r = Some (inject_Z 50)).
  { eexists (take 4 (select_ticker sample_table "AAA")), _.
    split; vm_compute; reflexivity. }
  destruct Hsel as (pre & r & Hsel & Hr).
  apply (proj1 (proj1 (proj2 (last_price_is_last_valid_close sample_table "AAA"))
                  pre r [] (inject_Z 50) Hsel Hr (List.Forall_nil _))).
Defined.





(** ** More on parsing *)

Section Characters.
Implicit Types (c : ascii) (s : string).

Lemma is_space_upper_char c : is_space (upper_char c) = is_space c.
Proof. destruct c as [[] [] [] [] [] [] [] []]; reflexivity. Qed.

Lemma upper_char_idemp c : upper_char (upper_char c) = upper_char c.
Proof. destruct c as [[] [] [] [] [] [] [] []]; reflexivity. Qed.

Lemma eqb_upper_char_comma c :
  Ascii.eqb (upper_char c) comma = Ascii.eqb c comma.
Proof. destruct c as [[] [] [] [] [] [] [] []]; reflexivity. Qed.

Lemma upper_idemp s : upper (upper s) = upper s.
Proof.
  induction s as [|c s IH]; simpl; [done|].
  by rewrite upper_char_idemp, IH.
Qed.

Lemma upper_empty s : upper s = EmptyString ↔ s = EmptyString.
Proof. by destruct s. Qed.

Lemma occurs_upper s : occurs comma (upper s) = occurs comma s.
Proof.
  induction s as [|c s IH]; simpl; [done|].
  by rewrite eqb_upper_char_comma, IH.
Qed.

Lemma lstrip_upper s : lstrip (upper s) = upper (lstrip s).
Proof.
  induction s as [|c s IH]; simpl; [done|].
  rewrite is_space_upper_char. by destruct (is_space c).
Qed.

Lemma rstrip_upper s : rstrip (upper s) = upper (rstrip s).
Proof.
  induction s as [|c s IH]; simpl; [done|].
  rewrite IH, is_space_upper_char.
  destruct (rstrip s); simpl; [by destruct (is_space c)|done].
Qed.

Lemma strip_upper s : strip (upper s) = upper (strip s).
Proof. unfold strip. by rewrite lstrip_upper, rstrip_upper. Qed.

Lemma lstrip_head s :
  lstrip s = EmptyString
  ∨ ∃ c r, lstrip s = String c r ∧ is_space c = false.
Proof.
  induction s as [|c s IH]; simpl; [by left|].
  destruct (is_space c) eqn:Hc; [done|]. right. by exists c, s.
Qed.

Lemma rstrip_cons c s :
  is_space c = false → rstrip (String c s) = String c (rstrip s).
Proof. intros Hc. simpl. rewrite Hc. by destruct (rstrip s). Qed.

Lemma rstrip_idemp s : rstrip (rstrip s) = rstrip s.
Proof.
  induction s as [|c s IH]; simpl; [done|].
  destruct (rstrip s) as [|c' r] eqn:Hr.
  - destruct (is_space c) eqn:Hc; simpl; [done|]. by rewrite Hc.
  - change (rstrip (String c (String c' r))) with
      (match rstrip (String c' r) with
       | EmptyString => if is_space c then EmptyString else String c EmptyString
       | r0 => String c r0
       end).
    by rewrite IH.
Qed.

(** Stripping twice is stripping once. *)
Lemma strip_idemp s : strip (strip s) = strip s.
Proof.
  unfold strip. destruct (lstrip_head s) as [->|(c & r & -> & Hc)]; [done|].
  rewrite (rstrip_cons _ _ Hc). simpl. rewrite Hc.
  by rewrite <- (rstrip_cons _ _ Hc), rstrip_idemp.
Qed.

Lemma occurs_lstrip c s : occurs c (lstrip s) = true → occurs c s = true.
Proof.
  induction s as [|c' s IH]; simpl; [done|].
  destruct (is_space c'); [|done]. intros H. rewrite (IH H). apply orb_true_r.
Qed.

Lemma occurs_rstrip c s : occurs c (rstrip s) = true → occurs c s = true.
Proof.
  induction s as [|c' s IH]; simpl; [done|].
  destruct (rstrip s) as [|c'' r].
  - destruct (is_space c'); simpl; [done|].
    rewrite orb_false_r. intros ->. done.
  - cbn [occurs]. intros [->|H]%orb_prop; [done|].
    rewrite (IH H). apply orb_true_r.
Qed.

Lemma occurs_strip c s : occurs c s = false → occurs c (strip s) = false.
Proof.
  intros Hs. destruct (occurs c (strip s)) eqn:Ho; [|done].
  unfold strip in Ho. apply occurs_rstrip, occurs_lstrip in Ho. congruence.
Qed.
End Characters.

Section Split.
Implicit Types (s p : string) (sep : ascii).

Lemma str_join_cons sep p q qs :
  str_join sep (p :: q :: qs) = p +:+ String sep (str_join sep (q :: qs)).
Proof. done. Qed.

Lemma str_join_split sep s : str_join sep (str_split sep s) = s.
Proof.
  induction s as [|c s IH]; [done|]. cbn [str_split].
  destruct (str_split_cons sep s) as (p & ps & Hs). rewrite Hs in *.
  destruct (Ascii.eqb_spec c sep) as [->|Hne].
  - rewrite str_join_cons, IH. done.
  - destruct ps as [|q qs].
    + simpl in *. by rewrite IH.
    + rewrite str_join_cons. rewrite str_join_cons in IH.
      by rewrite <- IH.
Qed.

Lemma str_split_pieces sep s :
  Forall (λ p, occurs sep p = false) (str_split sep s).
Proof.
  induction s as [|c s IH]; simpl; [by repeat constructor|].
  destruct (Ascii.eqb c sep) eqn:Hc; [by constructor|].
  destruct (str_split sep s) as [|p ps]; [by repeat constructor; simpl; rewrite Hc|].
  inversion IH as [|? ? Hp Hps]; subst.
  constructor; [|done]. simpl. by rewrite Hc, Hp.
Qed.

Lemma length_str_split sep s :
  length (str_split sep s) = S (occurrences sep s).
Proof.
  induction s as [|c s IH]; simpl; [done|].
  destruct (Ascii.eqb c sep); simpl; [by rewrite IH|].
  destruct (str_split sep s); simpl in *; done.
Qed.

Lemma str_split_piece sep p :
  occurs sep p = false → str_split sep p = [p].
Proof.
  induction p as [|c p IH]; simpl; [done|].
  intros [Hc Hp]%orb_false_elim. rewrite Hc, (IH Hp). done.
Qed.

Lemma str_split_app sep p s :
  occurs sep p = false →
  str_split sep (p +:+ String sep s) = p :: str_split sep s.
Proof.
  induction p as [|c p IH]; simpl.
  - intros _. by rewrite Ascii.eqb_refl.
  - intros [Hc Hp]%orb_false_elim. rewrite Hc, (IH Hp). done.
Qed.

Lemma str_split_join sep (ps : list string) :
  ps ≠ [] → Forall (λ p, occurs sep p = false) ps →
  str_split sep (str_join sep ps) = ps.
Proof.
  intros Hne Hall. induction Hall as [|p ps Hp Hps IH]; [done|].
  destruct ps as [|q qs].
  - by apply str_split_piece.
  - rewrite str_join_cons, (str_split_app _ _ _ Hp). f_equal. by apply IH.
Qed.
End Split.

(** X1. Splitting at the commas loses nothing: joining the pieces with
    commas gives the input back; no piece contains a comma; and there is one
    piece more than there are commas. *)
Theorem split_join_round_trip (s : string) :
  str_join comma (str_split comma s) = s
  ∧ Forall (λ p, occurs comma p = false) (str_split comma s)
  ∧ length (str_split comma s) = S (occurrences comma s).
Proof.
  split; [apply str_join_split|].
  split; [apply str_split_pieces|apply length_str_split].
Qed.

(** X2. Every parsed ticker is normalised: it is not empty, contains no
    comma, has no whitespace at either end and no lower-case ASCII letter;
    and there are at most as many tickers as comma-separated pieces. *)
Theorem parsed_tickers_normal (tickers_input : string) :
  Forall normal_ticker (parse_tickers tickers_input)
  ∧ length (parse_tickers tickers_input) ≤ S (occurrences comma tickers_input).
Proof.
  unfold parse_tickers. split.
  - apply Forall_fmap, Forall_forall. intros p Hp.
    apply list_elem_of_filter in Hp as [Htruthy Hp]. simpl.
    pose proof (str_split_pieces comma tickers_input) as Hpieces.
    apply Forall_forall with (x := p) in Hpieces; [|done].
    repeat split.
    + intros Hempty. apply (proj1 (upper_empty _)) in Hempty.
      by rewrite Hempty in Htruthy.
    + rewrite occurs_upper. by apply occurs_strip.
    + by rewrite strip_upper, strip_idemp.
    + apply upper_idemp.
  - rewrite length_fmap, <- length_str_split. apply length_filter.
Qed.

(** X3. Parsing is the inverse of joining on normalised ASCII tickers: a
    list of tickers of ASCII characters only, each normalised, written out
    comma-separated, parses to itself. *)
Theorem parse_join_round_trip (tickers : list string) :
  Forall (λ t, ascii_text t = true ∧ normal_ticker t) tickers →
  parse_tickers (str_join comma tickers) = tickers.
Proof.
  intros Hascii.
  assert (Hall : Forall normal_ticker tickers)
    by (eapply Forall_impl; [exact Hascii|]; by intros t [_ ?]).
  clear Hascii. destruct tickers as [|t tickers]; [done|].
  unfold parse_tickers. rewrite str_split_join; [|done|].
  - rewrite filter_all.
    + apply list_eq. intros i. rewrite list_lookup_fmap.
      destruct ((t :: tickers) !! i) as [u|] eqn:Hu; [|done]. simpl.
      apply list_elem_of_lookup_2 in Hu.
      apply Forall_forall with (x := u) in Hall as (_ & _ & Hs & Hu'); [|done].
      by rewrite Hs, Hu'.
    + eapply Forall_impl; [exact Hall|]. intros u (Hne & _ & Hs & _). simpl.
      rewrite Hs. by destruct u.
  - eapply Forall_impl; [exact Hall|]. by intros u (_ & Hc & _).
Qed.

Lemma parse_join_round_trip_witness :
  parse_tickers (str_join comma ["PETR4.SA"; "VALE3.SA"]) = ["PETR4.SA"; "VALE3.SA"].
Proof.
  apply parse_join_round_trip.
  repeat constructor; try discriminate; reflexivity.
Defined.

(** ** More on the frames and the table *)

Section Bars.
Context (raw_data : RawData).
Implicit Types (df : DataFrame) (t : string) (bars : list Bar).

Lemma lookup_reset_index t bars i r :
  reset_index t (rd_index raw_data, bars) !! i = Some r ↔
  ∃ d b, rd_index raw_data !! i = Some d ∧ bars !! i = Some b
         ∧ row_of_bar r d b t ∧ MA r = None.
Proof.
  unfold reset_index. simpl. rewrite lookup_zip_with_Some. split.
  - intros (d & b & -> & Hd & Hb). exists d, b. by repeat split.
  - intros (d & b & Hd & Hb & (H1 & H2 & H3 & H4 & H5 & H6 & H7) & H8).
    exists d, b. split; [|done]. destruct r. simpl in *. by subst.
Qed.

Lemma length_reset_index t bars :
  length (reset_index t (rd_index raw_data, bars))
  = length (rd_index raw_data) `min` length bars.
Proof. unfold reset_index. apply length_zip_with. Qed.

Lemma length_ticker_frame show W t bars df :
  rd_columns raw_data !! t = Some bars →
  ticker_frame raw_data show W t = Ok df →
  length df = length (rd_index raw_data) `min` length bars.
Proof.
  intros Hbars Hdf. apply ticker_frame_Ok in Hdf as (bars' & Hbars' & Hdf).
  simplify_eq. simpl in Hdf. destruct show.
  - destruct Hdf as [_ ->]. rewrite length_assign_MA.
    + apply length_reset_index.
    + by rewrite length_rolling_mean, length_fmap.
  - subst df. apply length_reset_index.
Qed.

Lemma ticker_frame_row show W t bars df i r :
  rd_columns raw_data !! t = Some bars →
  ticker_frame raw_data show W t = Ok df →
  df !! i = Some r →
  ∃ d b, rd_index raw_data !! i = Some d ∧ bars !! i = Some b
         ∧ row_of_bar r d b t ∧ (is_Some (MA r) ↔ show = true).
Proof.
  intros Hbars Hdf Hr. apply ticker_frame_Ok in Hdf as (bars' & Hbars' & Hdf).
  simplify_eq. simpl in Hdf. destruct show.
  - destruct Hdf as [_ ->]. unfold assign_MA in Hr.
    apply lookup_zip_with_Some in Hr as (r0 & m & -> & Hr0 & _).
    apply lookup_reset_index in Hr0 as (d & b & Hd & Hb & Hrow & _).
    exists d, b. split; [done|]. split; [done|]. split; [exact Hrow|].
    split; [done|]. intros _. by eexists.
  - subst df.
    apply lookup_reset_index in Hr as (d & b & Hd & Hb & Hrow & Hma).
    exists d, b. split; [done|]. split; [done|]. split; [exact Hrow|].
    rewrite Hma. split; [by intros [? ?]|done].
Qed.

Lemma ticker_frame_bar show W t bars df i d b :
  rd_columns raw_data !! t = Some bars →
  ticker_frame raw_data show W t = Ok df →
  rd_index raw_data !! i = Some d → bars !! i = Some b →
  ∃ r, df !! i = Some r ∧ row_of_bar r d b t.
Proof.
  intros Hbars Hdf Hd Hb.
  assert (Hi : i < length df).
  { rewrite (length_ticker_frame _ _ _ _ _ Hbars Hdf).
    apply lookup_lt_Some in Hd. apply lookup_lt_Some in Hb. lia. }
  destruct (lookup_lt_is_Some_2 _ _ Hi) as [r Hr]. exists r. split; [done|].
  destruct (ticker_frame_row _ _ _ _ _ _ _ Hbars Hdf Hr)
    as (d' & b' & Hd' & Hb' & Hrow & _).
  by simplify_eq.
Qed.
End Bars.

Lemma concat_replicate_nil {A} (n : nat) : concat (replicate n (@nil A)) = [].
Proof. induction n; [done|]. simpl. exact IHn. Qed.

Section Table.
Context (raw_data : RawData) (show : bool) (W : Z).
Implicit Types (tickers : list string) (t : string).

Lemma elem_of_table r tickers :
  r ∈ concat (loaded raw_data show W tickers) →
  ∃ df bars i,
    Ticker r ∈ tickers ∧ rd_columns raw_data !! Ticker r = Some bars
    ∧ ticker_frame raw_data show W (Ticker r) = Ok df ∧ df !! i = Some r.
Proof.
  intros Hr. apply elem_of_concat in Hr as (df & Hr & Hdf).
  apply elem_of_loaded in Hdf as (t & Ht & Hdf).
  pose proof (ticker_frame_Ticker _ _ _ _ _ _ Hdf Hr) as ->.
  apply list_elem_of_lookup in Hr as [i Hi].
  destruct (ticker_frame_Ok _ _ _ _ _ Hdf) as (bars & Hbars & _).
  by exists df, bars, i.
Qed.

(** With the moving average on and a window pandas refuses, nothing
    loads. *)
Lemma loaded_refused_window tickers :
  show = true → (W < 0 ∨ int64_limit ≤ W)%Z →
  loaded raw_data show W tickers = [].
Proof.
  intros -> HW. apply loaded_nil_iff. intros t _.
  unfold ticker_frame, series_rolling_mean.
  destruct (getitem raw_data t); [|done].
  destruct (Z.ltb_spec W 0); [done|].
  destruct (Z.leb_spec int64_limit W); [done|lia].
Qed.

Lemma loaded_negative_window tickers :
  show = true → (W < 0)%Z → loaded raw_data show W tickers = [].
Proof. intros Hshow HW. apply loaded_refused_window; [done|by left]. Qed.

Lemma ticker_frame_present t bars tickers :
  loaded raw_data show W tickers ≠ [] →
  rd_columns raw_data !! t = Some bars →
  ∃ df, ticker_frame raw_data show W t = Ok df.
Proof.
  intros Hne Hbars.
  destruct (ticker_frame raw_data show W t) as [df|err] eqn:Hdf; [by exists df|].
  apply ticker_frame_Raise in Hdf as [Hnone|[Hshow HW]]; [congruence|].
  by rewrite loaded_refused_window in Hne.
Qed.

Lemma length_loaded_failed tickers :
  length (loaded raw_data show W tickers)
  + length (failed raw_data show W tickers) = length tickers.
Proof.
  induction tickers as [|t tickers IH]; [done|].
  unfold failed in *. rewrite filter_cons.
  destruct (ticker_frame raw_data show W t) as [df|err] eqn:Hdf.
  - rewrite (loaded_cons_Ok _ _ _ _ _ _ Hdf), decide_False by done.
    simpl. lia.
  - rewrite (loaded_cons_Raise _ _ _ _ _ _ Hdf), decide_True by done.
    simpl. lia.
Qed.

Lemma length_concat_loaded tickers :
  aligned raw_data →
  length (concat (loaded raw_data show W tickers))
  = length (loaded raw_data show W tickers) * length (rd_index raw_data).
Proof.
  intros Hal. induction tickers as [|t tickers IH]; [done|].
  destruct (ticker_frame raw_data show W t) as [df|err] eqn:Hdf.
  - rewrite (loaded_cons_Ok _ _ _ _ _ _ Hdf). cbn [concat length].
    rewrite length_app, IH.
    destruct (ticker_frame_Ok _ _ _ _ _ Hdf) as (bars & Hbars & _).
    rewrite (length_ticker_frame _ _ _ _ _ _ Hbars Hdf), (Hal _ _ Hbars). lia.
  - by rewrite (loaded_cons_Raise _ _ _ _ _ _ Hdf).
Qed.

(** The rows of a ticker in the table: its frame, once per request. *)
Lemma select_ticker_concat_loaded_requests t tickers :
  select_ticker (concat (loaded raw_data show W tickers)) t
  = concat (replicate (requests t tickers)
              (frame_of (ticker_frame raw_data show W t))).
Proof.
  unfold requests. induction tickers as [|u tickers IH]; [done|].
  rewrite filter_cons.
  destruct (ticker_frame raw_data show W u) as [df|err] eqn:Hdf.
  - rewrite (loaded_cons_Ok _ _ _ _ _ _ Hdf). cbn [concat].
    rewrite select_ticker_app, IH. case_decide as Hut.
    + subst u. rewrite (select_ticker_frame _ _ _ _ _ Hdf), Hdf. done.
    + by rewrite (select_ticker_other _ _ _ _ _ _ Hdf Hut).
  - rewrite (loaded_cons_Raise _ _ _ _ _ _ Hdf), IH. case_decide as Hut; [|done].
    subst u. rewrite Hdf. simpl.
    by rewrite !concat_replicate_nil.
Qed.
End Table.

Lemma aligned_sample_raw : aligned sample_raw.
Proof.
  intros t bars Hbars. unfold sample_raw in Hbars. simpl in Hbars.
  apply lookup_insert_Some in Hbars as [[_ <-]|[_ Hbars]]; [done|].
  by apply lookup_singleton_Some in Hbars as [_ <-].
Defined.

(** X4. The table neither invents nor alters nor drops a price: every row
    is the bar the provider gave for the row's ticker at the row's date, with
    open, high, low, close and volume unchanged, and the row's ticker was
    requested; conversely every bar (with a date) of a requested ticker that
    the provider answered for has its row in the table. *)
Theorem table_rows_are_provider_bars (yf_download : provider)
    (tickers : list string) (s e : timestamp) (show : bool) (W : Z)
    (raw_data : RawData) (table : DataFrame) :
  yf_download tickers s e = Ok raw_data →
  (fetch_yfinance_data yf_download tickers s e show W).2 = Ok table →
  (∀ r, r ∈ table →
     Ticker r ∈ tickers
     ∧ ∃ bars i b, rd_columns raw_data !! Ticker r = Some bars
                   ∧ rd_index raw_data !! i = Some (Date r)
                   ∧ bars !! i = Some b
                   ∧ row_of_bar r (Date r) b (Ticker r))
  ∧ (∀ t bars i d b,
       t ∈ tickers → rd_columns raw_data !! t = Some bars →
       rd_index raw_data !! i = Some d → bars !! i = Some b →
       ∃ r, r ∈ table ∧ row_of_bar r d b t).
Proof.
  intros Hraw Htable.
  rewrite (fetch_yfinance_data_answered _ _ _ _ show W _ Hraw) in Htable.
  simpl in Htable. apply pd_concat_Ok in Htable as [Hne ->]. split.
  - intros r Hr.
    apply elem_of_table in Hr as (df & bars & i & Hin & Hbars & Hdf & Hi).
    split; [done|].
    destruct (ticker_frame_row _ _ _ _ _ _ _ _ Hbars Hdf Hi)
      as (d & b & Hd & Hb & Hrow & _).
    exists bars, i, b. destruct Hrow as [Hdate Hrest].
    rewrite Hdate. repeat split; try done; apply Hrest.
  - intros t bars i d b Ht Hbars Hd Hb.
    destruct (ticker_frame_present _ _ _ _ _ _ Hne Hbars) as [df Hdf].
    destruct (ticker_frame_bar _ _ _ _ _ _ _ _ _ Hbars Hdf Hd Hb)
      as (r & Hr & Hrow).
    exists r. split; [|done]. apply elem_of_concat. exists df.
    split; [by apply list_elem_of_lookup_2 in Hr|].
    apply elem_of_loaded. by exists t.
Qed.

Lemma table_rows_are_provider_bars_witness :
  ∃ r, r ∈ sample_table ∧ row_of_bar r 4%Z (day 7 9 6 8 13) "BBB".
Proof.
  refine (proj2 (table_rows_are_provider_bars sample_provider
                   ["AAA"; "ZZZ"; "BBB"] 1%Z 5%Z true 2%Z sample_raw sample_table
                   eq_refl _) "BBB" _ 3 4%Z (day 7 9 6 8 13) _ _ _ _).
  - vm_compute. reflexivity.
  - apply (bool_decide_unpack _). vm_compute. exact I.
  - vm_compute. reflexivity.
  - reflexivity.
  - reflexivity.
Defined.

(** X5. The MA column is there exactly when the moving average was asked
    for: every row of the table has an MA cell (a value or NaN) when
    [show_ma] is on, and none when it is off; so the chart's MA trace, drawn
    only when [show_ma] is on, always finds its column. *)
Theorem MA_column_iff_show_ma (yf_download : provider)
    (tickers : list string) (s e : timestamp) (show : bool) (W : Z)
    (raw_data : RawData) (table : DataFrame) (selected : string) :
  yf_download tickers s e = Ok raw_data →
  (fetch_yfinance_data yf_download tickers s e show W).2 = Ok table →
  (∀ r, r ∈ table → is_Some (MA r) ↔ show = true)
  ∧ (∀ x close ma,
       st_plotly_chart (PriceFigure selected x close (Some ma))
         ∈ plot_graphs table show selected →
       show = true ∧ Forall is_Some ma ∧ length ma = length x).
Proof.
  intros Hraw Htable.
  rewrite (fetch_yfinance_data_answered _ _ _ _ show W _ Hraw) in Htable.
  simpl in Htable. apply pd_concat_Ok in Htable as [Hne ->].
  assert (Hrows : ∀ r, r ∈ concat (loaded raw_data show W tickers) →
                       is_Some (MA r) ↔ show = true).
  { intros r Hr.
    apply elem_of_table in Hr as (df & bars & i & Hin & Hbars & Hdf & Hi).
    by destruct (ticker_frame_row _ _ _ _ _ _ _ _ Hbars Hdf Hi)
      as (d & b & _ & _ & _ & HMA). }
  split; [done|]. intros x close ma Hin. unfold plot_graphs in Hin.
  apply elem_of_cons in Hin as [Heq|Hin].
  - destruct show; [|done]. injection Heq as -> _ ->.
    split; [done|]. split; [|by rewrite !length_fmap].
    apply Forall_fmap, Forall_forall. intros r Hr. simpl.
    apply Hrows; [|done]. unfold select_ticker in Hr.
    by apply list_elem_of_filter in Hr as [_ ?].
  - apply elem_of_cons in Hin as [Heq|Hin]; [done|].
    by apply elem_of_nil in Hin.
Qed.

Lemma MA_column_iff_show_ma_witness :
  Forall (λ r, is_Some (MA r)) sample_table.
Proof.
  apply Forall_forall. intros r Hr.
  apply (proj1 (MA_column_iff_show_ma sample_provider ["AAA"; "ZZZ"; "BBB"]
                  1%Z 5%Z true 2%Z sample_raw sample_table "AAA" eq_refl
                  ltac:(vm_compute; reflexivity)) r Hr).
  reflexivity.
Defined.

(** X6. When every column of the provider's answer is as long as its date
    index, the table has one row per date for every requested ticker that did
    not get a warning: its length is (tickers - warnings) x dates. *)
Theorem table_row_count (yf_download : provider)
    (tickers : list string) (s e : timestamp) (show : bool) (W : Z)
    (raw_data : RawData) (evs : list event) (table : DataFrame) :
  aligned raw_data →
  yf_download tickers s e = Ok raw_data →
  fetch_yfinance_data yf_download tickers s e show W = (evs, Ok table) →
  length table = (length tickers - length evs) * length (rd_index raw_data).
Proof.
  intros Hal Hraw Hout.
  rewrite (fetch_yfinance_data_answered _ _ _ _ show W _ Hraw) in Hout.
  injection Hout as <- Htable. apply pd_concat_Ok in Htable as [_ ->].
  rewrite length_concat_loaded by done. rewrite length_fmap.
  pose proof (length_loaded_failed raw_data show W tickers). f_equal. lia.
Qed.

Lemma table_row_count_witness : length sample_table = (3 - 1) * 5.
Proof.
  apply (table_row_count sample_provider ["AAA"; "ZZZ"; "BBB"] 1%Z 5%Z true 2%Z
           sample_raw [load_warning "ZZZ"] sample_table aligned_sample_raw eq_refl).
  vm_compute. reflexivity.
Defined.

(** X7. With the moving average on, a negative window makes the rolling
    call raise inside every ticker's [try]: whatever the provider answered,
    each requested ticker gets its warning, nothing is loaded and the
    aggregation raises on the empty concatenation. *)
Theorem negative_window_fails_every_ticker (yf_download : provider)
    (tickers : list string) (s e : timestamp) (W : Z) (raw_data : RawData) :
  yf_download tickers s e = Ok raw_data →
  (W < 0)%Z →
  fetch_yfinance_data yf_download tickers s e true W
  = (load_warning <$> tickers, Raise (ValueError "No objects to concatenate")).
Proof.
  intros Hraw HW.
  rewrite (fetch_yfinance_data_answered _ _ _ _ true W _ Hraw).
  pose proof (loaded_negative_window raw_data true W tickers eq_refl HW) as Hl.
  rewrite Hl. f_equal. f_equal. apply failed_all.
  by apply loaded_nil_iff.
Qed.

Lemma negative_window_fails_every_ticker_witness :
  fetch_yfinance_data sample_provider ["AAA"; "BBB"] 1%Z 5%Z true (-3)%Z
  = ([load_warning "AAA"; load_warning "BBB"],
     Raise (ValueError "No objects to concatenate")).
Proof.
  apply (negative_window_fails_every_ticker sample_provider ["AAA"; "BBB"]
           1%Z 5%Z (-3)%Z sample_raw eq_refl).
  lia.
Defined.

(** X8. Nothing deduplicates the request: the rows of a ticker in the table
    are its frame repeated once per occurrence of the ticker in the request
    (none when it was not requested). *)
Theorem ticker_rows_repeat_per_request (yf_download : provider)
    (tickers : list string) (s e : timestamp) (show : bool) (W : Z)
    (raw_data : RawData) (table : DataFrame) (t : string) :
  yf_download tickers s e = Ok raw_data →
  (fetch_yfinance_data yf_download tickers s e show W).2 = Ok table →
  select_ticker table t
  = concat (replicate (requests t tickers)
              (frame_of (ticker_frame raw_data show W t))).
Proof.
  intros Hraw Htable.
  rewrite (fetch_yfinance_data_answered _ _ _ _ show W _ Hraw) in Htable.
  simpl in Htable. apply pd_concat_Ok in Htable as [_ ->].
  apply select_ticker_concat_loaded_requests.
Qed.

Lemma ticker_rows_repeat_per_request_witness :
  select_ticker
    (frame_of (fetch_yfinance_data sample_provider ["BBB"; "AAA"; "BBB"]
                 1%Z 5%Z true 2%Z).2) "BBB"
  = sample_BBB ++ sample_BBB.
Proof.
  rewrite (ticker_rows_repeat_per_request sample_provider ["BBB"; "AAA"; "BBB"]
             1%Z 5%Z true 2%Z sample_raw _ "BBB" eq_refl);
    vm_compute; reflexivity.
Defined.

(** ** More on the moving average *)

Lemma drop_MA_set_MA (r : Row) (m : cell) :
  MA r = None → drop_MA (set_MA r m) = r.
Proof. destruct r. simpl. by intros ->. Qed.

Lemma drop_MA_assign_MA (df : DataFrame) (ma : list cell) :
  Forall (λ r, MA r = None) df → length ma = length df →
  drop_MA <$> assign_MA df ma = df.
Proof.
  intros Hnone. revert ma.
  induction Hnone as [|r df Hr _ IH]; intros [|m ma] Hlen; try done.
  cbn. rewrite (drop_MA_set_MA _ _ Hr). f_equal. apply IH.
  simpl in Hlen. lia.
Qed.

Lemma MA_reset_index (ticker : string) (sub : list timestamp * list Bar) :
  Forall (λ r, MA r = None) (reset_index ticker sub).
Proof.
  apply Forall_forall. intros r Hr. unfold reset_index in Hr.
  by apply elem_of_lookup_zip_with in Hr as (i & d & b & -> & _ & _).
Qed.

Lemma ticker_frame_show_off (raw_data : RawData) (W W' : Z) (t : string) :
  (0 ≤ W < int64_limit)%Z →
  ticker_frame raw_data false W' t
  = match ticker_frame raw_data true W t with
    | Ok df => Ok (drop_MA <$> df)
    | Raise err => Raise err
    end.
Proof.
  intros HW. unfold ticker_frame, series_rolling_mean.
  destruct (getitem raw_data t) as [sub|err]; [|done].
  destruct (Z.ltb_spec W 0); [lia|].
  destruct (Z.leb_spec int64_limit W); [lia|].
  rewrite drop_MA_assign_MA; [done|apply MA_reset_index|].
  by rewrite length_rolling_mean, length_fmap.
Qed.

Lemma loaded_show_off (raw_data : RawData) (W W' : Z) (tickers : list string) :
  (0 ≤ W < int64_limit)%Z →
  loaded raw_data false W' tickers
  = (λ df : DataFrame, drop_MA <$> df) <$> loaded raw_data true W tickers
  ∧ failed raw_data false W' tickers = failed raw_data true W tickers.
Proof.
  intros HW. induction tickers as [|t tickers [IHl IHf]]; [done|].
  unfold failed in *. rewrite !filter_cons.
  pose proof (ticker_frame_show_off raw_data W W' t HW) as Hoff.
  destruct (ticker_frame raw_data true W t) as [df|err] eqn:Hon.
  - rewrite (loaded_cons_Ok _ _ _ _ _ _ Hon), (loaded_cons_Ok _ _ _ _ _ _ Hoff).
    rewrite Hoff, !decide_False by done. split; [|done].
    by rewrite IHl.
  - rewrite (loaded_cons_Raise _ _ _ _ _ _ Hon),
      (loaded_cons_Raise _ _ _ _ _ _ Hoff).
    rewrite Hoff, !decide_True by done. split; [done|]. by rewrite IHf.
Qed.

Lemma fmap_concat_frames (f : Row → Row) (frames : list DataFrame) :
  f <$> concat frames = concat ((λ df : DataFrame, f <$> df) <$> frames).
Proof.
  induction frames as [|df frames IH]; [done|].
  cbn. by rewrite fmap_app, IH.
Qed.

(** X9. Switching the moving average on with a window pandas accepts
    (from 0 up to, not including, 2^63) changes nothing but the MA column:
    same warnings, and the table without the moving average is the table
    with it, MA cells removed; if one aggregation raises so does the other,
    with the same exception. *)
Theorem moving_average_only_adds_a_column (yf_download : provider)
    (tickers : list string) (s e : timestamp) (W W' : Z) (raw_data : RawData) :
  yf_download tickers s e = Ok raw_data →
  (0 ≤ W < int64_limit)%Z →
  fetch_yfinance_data yf_download tickers s e false W'
  = ((fetch_yfinance_data yf_download tickers s e true W).1,
     match (fetch_yfinance_data yf_download tickers s e true W).2 with
     | Ok table => Ok (drop_MA <$> table)
     | Raise err => Raise err
     end).
Proof.
  intros Hraw HW.
  rewrite !(fetch_yfinance_data_answered _ _ _ _ _ _ _ Hraw). simpl.
  destruct (loaded_show_off raw_data W W' tickers HW) as [-> ->].
  f_equal. destruct (loaded raw_data true W tickers) as [|df frames]; [done|].
  simpl. by rewrite fmap_app, fmap_concat_frames.
Qed.

Lemma moving_average_only_adds_a_column_witness :
  (fetch_yfinance_data sample_provider ["AAA"; "ZZZ"; "BBB"] 1%Z 5%Z false 20%Z).2
  = Ok (drop_MA <$> sample_table).
Proof.
  rewrite (moving_average_only_adds_a_column sample_provider
             ["AAA"; "ZZZ"; "BBB"] 1%Z 5%Z 2%Z 20%Z sample_raw eq_refl);
    [vm_compute; reflexivity | unfold int64_limit; lia].
Defined.

Lemma singleton_list {A} (l : list A) (x : A) :
  length l = 1 → l !! 0 = Some x → l = [x].
Proof.
  destruct l as [|y [|z l]]; simpl; try done. by intros _ [= ->].
Qed.

(** X11. With a window of one day the moving average is the close itself:
    where the close is missing the MA is NaN, elsewhere it is a value equal
    to the close. *)
Theorem window_of_one_is_the_close (raw_data : RawData) (ticker : string)
    (df : DataFrame) (i : nat) (r : Row) :
  ticker_frame raw_data true 1%Z ticker = Ok df →
  df !! i = Some r →
  match Close r with
  | Some c => ∃ m, MA r = Some (Some m) ∧ (m == c)%Q
  | None => MA r = Some None
  end.
Proof.
  intros Hdf Hr.
  rewrite (frame_MA_lookup raw_data ticker 1 df i r Hdf Hr).
  assert (Hi : i < length (Close <$> df)).
  { rewrite length_fmap. by apply lookup_lt_Some in Hr. }
  assert (Hw : window 1 i (Close <$> df) = [Close r]).
  { apply singleton_list.
    - rewrite length_window by done. lia.
    - rewrite lookup_window by lia.
      replace (i + 1 - 1 + 0) with i by lia.
      by rewrite list_lookup_fmap, Hr. }
  rewrite Hw. destruct (Close r) as [c|]; [|done].
  eexists. split; [reflexivity|]. simpl. field.
Qed.

Lemma window_of_one_is_the_close_witness :
  ∃ m, MA <$> frame_of (ticker_frame sample_raw true 1%Z "BBB") !! 2
       = Some (Some (Some m))
       ∧ (m == inject_Z 7)%Q.
Proof.
  destruct (frame_of (ticker_frame sample_raw true 1%Z "BBB") !! 2) as [r|] eqn:Hr;
    [|vm_compute in Hr; discriminate Hr].
  assert (Hc : Close r = Some (inject_Z 7)).
  { vm_compute in Hr. injection Hr as <-. reflexivity. }
  pose proof (window_of_one_is_the_close sample_raw "BBB"
                (frame_of (ticker_frame sample_raw true 1%Z "BBB")) 2 r
                ltac:(vm_compute; reflexivity) Hr) as Hm.
  rewrite Hc in Hm. destruct Hm as (m & Hm & Heq).
  exists m. simpl. by rewrite Hm.
Defined.

(** ** More on the metrics *)

Lemma last_price_by_last (df_final : DataFrame) (ticker : string) :
  last_price df_final ticker
  = match last (close_series df_final ticker) with
    | Some p => Ok p
    | None => Raise (IndexError "single positional indexer is out-of-bounds")
    end.
Proof. unfold last_price. apply iloc_last. Qed.

Lemma variation_by_ends (df_final : DataFrame) (ticker : string) :
  variation df_final ticker
  = match last (close_series df_final ticker), head (close_series df_final ticker) with
    | Some l, Some f => Ok (np_times_100 (np_true_divide (np_sub l f) f))
    | _, _ => Raise (IndexError "single positional indexer is out-of-bounds")
    end.
Proof.
  unfold variation. rewrite iloc_last, iloc_first.
  destruct (last (close_series df_final ticker)); [|done].
  by destruct (head (close_series df_final ticker)).
Qed.

Lemma last_price_variation_cases (df_final : DataFrame) (ticker : string) :
  (is_metric (last_price_metric df_final ticker) = true
   ∧ ∃ v, variation_metric df_final ticker
          = [st_metric (ticker +:+ " - Variação no Período") v (Some v)])
  ∨ (is_warning (last_price_metric df_final ticker) = true
     ∧ variation_metric df_final ticker = []).
Proof.
  unfold last_price_metric, variation_metric.
  rewrite last_price_by_last, variation_by_ends.
  destruct (close_series df_final ticker) as [|c series] eqn:Hs.
  - by right.
  - left. destruct (last (c :: series)) as [l|] eqn:Hl.
    + split; [done|]. by eexists.
    + by apply last_None in Hl.
Qed.

(** X12. The two metric columns agree on every ticker: a ticker shows
    either both its last price and its variation, or the "not found" warning
    and no variation; never one metric without the other. *)
Theorem metrics_come_in_pairs (df_final : DataFrame) (ticker : string) :
  (is_metric (last_price_metric df_final ticker) = true
   ∧ ∃ v, variation_metric df_final ticker
          = [st_metric (ticker +:+ " - Variação no Período") v (Some v)])
  ∨ (is_warning (last_price_metric df_final ticker) = true
     ∧ variation_metric df_final ticker = []).
Proof. apply last_price_variation_cases. Qed.

Lemma show_metrics_columns (df_final : DataFrame) (tickers : list string) :
  let shown := filter (λ t, is_metric (last_price_metric df_final t) = true) tickers in
  filter (λ e, is_metric e = true) (last_price_metric df_final <$> tickers)
  = last_price_metric df_final <$> shown
  ∧ length (filter (λ e, is_warning e = true)
              (last_price_metric df_final <$> tickers))
    = length tickers - length shown
  ∧ length shown ≤ length tickers
  ∧ length (concat (variation_metric df_final <$> tickers)) = length shown
  ∧ Forall (λ e, is_metric e = true)
           (concat (variation_metric df_final <$> tickers)).
Proof.
  induction tickers as [|t tickers (IH1 & IH2 & IH3 & IH4 & IH5)];
    [by repeat split|].
  cbn zeta in *. cbn [fmap list_fmap concat]. rewrite !filter_cons.
  destruct (last_price_variation_cases df_final t) as [[Hm [v Hv]]|[Hw Hv]].
  - rewrite !decide_True by done. rewrite Hv.
    assert (is_warning (last_price_metric df_final t) ≠ true)
      by (destruct (last_price_metric df_final t); done).
    rewrite decide_False by done. cbn. repeat split.
    + by rewrite IH1.
    + lia.
    + lia.
    + by rewrite IH4.
    + by constructor.
  - assert (is_metric (last_price_metric df_final t) ≠ true)
      by (destruct (last_price_metric df_final t); done).
    rewrite !decide_False by done. rewrite decide_True by done. rewrite Hv.
    cbn. repeat split; try done; lia.
Qed.

(** X13. [show_metrics] makes one call per ticker in the first column (a
    metric or a warning) and one more call for each ticker that got a metric:
    the metrics are twice the tickers not warned about, the warnings are at
    most one per ticker, and nothing else is shown. *)
Theorem show_metrics_counts (tickers : list string) (df_final : DataFrame) :
  let evs := show_metrics tickers df_final in
  let warnings := filter (λ e, is_warning e = true) evs in
  let metrics := filter (λ e, is_metric e = true) evs in
  length warnings ≤ length tickers
  ∧ length metrics = 2 * (length tickers - length warnings)
  ∧ length evs = length warnings + length metrics.
Proof.
  cbn zeta. unfold show_metrics. rewrite !filter_app, !length_app.
  destruct (show_metrics_columns df_final tickers) as (H1 & H2 & H3 & H4 & H5).
  cbn zeta in *.
  rewrite (filter_all (λ e, is_metric e = true)
             (concat (variation_metric df_final <$> tickers))) by done.
  rewrite (filter_none (λ e, is_warning e = true)
             (concat (variation_metric df_final <$> tickers))).
  2: { eapply Forall_impl; [exact H5|]. by intros []. }
  rewrite H1, H2, H4, !length_fmap. simpl. lia.
Qed.

Section Repeats.
Context {A : Type}.
Implicit Types (l : list A).

Lemma last_concat_replicate l (k : nat) :
  last (concat (replicate (S k) l)) = last l.
Proof.
  induction k as [|k IH]; simpl in *; [by rewrite app_nil_r|].
  rewrite last_app, IH. by destruct (last l).
Qed.

Lemma head_concat_replicate l (k : nat) :
  head (concat (replicate (S k) l)) = head l.
Proof.
  destruct l as [|x l]; [|done].
  simpl. apply (f_equal head (concat_replicate_nil k)).
Qed.
End Repeats.

Lemma dropna_concat_replicate (k : nat) (df : DataFrame) :
  dropna (Close <$> concat (replicate k df))
  = concat (replicate k (dropna (Close <$> df))).
Proof.
  induction k as [|k IH]; [done|].
  simpl. unfold dropna in *. by rewrite fmap_app, omap_app, IH.
Qed.

Lemma requests_pos (t : string) (tickers : list string) :
  t ∈ tickers → ∃ k, requests t tickers = S k.
Proof.
  intros Ht. unfold requests.
  destruct (filter (λ u, u = t) tickers) as [|u l] eqn:Hf; [|by exists (length l)].
  assert (Hin : t ∈ filter (λ u, u = t) tickers) by by apply list_elem_of_filter.
  rewrite Hf in Hin. by apply elem_of_nil in Hin.
Qed.

(** X15. The metrics of a loaded ticker are those of its own frame:
    its last price and its variation, computed on the whole table, are what
    they are on the ticker's frame alone, whatever other tickers were
    requested and however often the ticker itself was. *)
Theorem metrics_use_own_frame (yf_download : provider)
    (tickers : list string) (s e : timestamp) (show : bool) (W : Z)
    (raw_data : RawData) (table df : DataFrame) (t : string) :
  yf_download tickers s e = Ok raw_data →
  (fetch_yfinance_data yf_download tickers s e show W).2 = Ok table →
  t ∈ tickers →
  ticker_frame raw_data show W t = Ok df →
  last_price_metric table t = last_price_metric df t
  ∧ variation_metric table t = variation_metric df t.
Proof.
  intros Hraw Htable Ht Hdf.
  rewrite (fetch_yfinance_data_answered _ _ _ _ show W _ Hraw) in Htable.
  simpl in Htable. apply pd_concat_Ok in Htable as [_ ->].
  destruct (requests_pos t tickers Ht) as [k Hk].
  assert (Hseries : close_series (concat (loaded raw_data show W tickers)) t
                    = concat (replicate (S k) (close_series df t))).
  { unfold close_series.
    rewrite select_ticker_concat_loaded_requests, Hk, Hdf.
    rewrite (select_ticker_frame _ _ _ _ _ Hdf).
    apply dropna_concat_replicate. }
  unfold last_price_metric, variation_metric.
  rewrite !last_price_by_last, !variation_by_ends, Hseries.
  by rewrite last_concat_replicate, head_concat_replicate.
Qed.

Lemma metrics_use_own_frame_witness :
  last_price_metric
    (frame_of (fetch_yfinance_data sample_provider ["BBB"; "AAA"; "BBB"]
                 1%Z 5%Z true 2%Z).2) "BBB"
  = last_price_metric sample_BBB "BBB".
Proof.
  refine (proj1 (metrics_use_own_frame sample_provider ["BBB"; "AAA"; "BBB"]
                   1%Z 5%Z true 2%Z sample_raw _ sample_BBB "BBB" eq_refl _ _ _)).
  - vm_compute. reflexivity.
  - apply (bool_decide_unpack _). vm_compute. exact I.
  - vm_compute. reflexivity.
Defined.

(** ** More on the run *)

Lemma fetch_events_warnings (yf_download : provider) (tickers : list string)
    (s e : timestamp) (show : bool) (W : Z) :
  Forall (λ ev, is_warning ev = true)
         (fetch_yfinance_data yf_download tickers s e show W).1.
Proof.
  unfold fetch_yfinance_data.
  destruct (yf_download tickers s e) as [raw_data|err]; [|constructor].
  rewrite fetch_loop_spec. simpl. apply Forall_fmap, Forall_forall. done.
Qed.

Lemma show_metrics_events (tickers : list string) (df_final : DataFrame) :
  Forall (λ ev, is_warning ev = true ∨ is_metric ev = true)
         (show_metrics tickers df_final).
Proof.
  unfold show_metrics. apply Forall_app. split.
  - apply Forall_fmap, Forall_forall. intros t _. simpl.
    unfold last_price_metric. destruct (last_price df_final t); [by right|by left].
  - destruct (show_metrics_columns df_final tickers) as (_ & _ & _ & _ & H).
    eapply Forall_impl; [exact H|]. intros ev Hev. by right.
Qed.

(** X17. No moving average can be drawn when the window is 0 or longer
    than the ticker's series: every MA cell of the frame is then NaN. *)
Theorem moving_average_all_absent (raw_data : RawData) (ticker : string)
    (W : nat) (df : DataFrame) :
  ticker_frame raw_data true (Z.of_nat W) ticker = Ok df →
  W = 0 ∨ length df < W →
  Forall (λ r, MA r = Some None) df.
Proof.
  intros Hdf HW. apply Forall_forall. intros r Hr.
  apply list_elem_of_lookup in Hr as [i Hr].
  rewrite (frame_MA_lookup _ _ _ _ _ _ Hdf Hr). f_equal.
  assert (Hi : i < length (Close <$> df)).
  { rewrite length_fmap. by apply lookup_lt_Some in Hr. }
  pose proof (length_window W i _ Hi) as Hwin.
  pose proof (length_observations_le (window W i (Close <$> df))) as Hobs.
  destruct HW as [-> | Hlen].
  - unfold calc_mean.
    replace (length (observations (window 0 i (Close <$> df)))) with 0 by lia.
    done.
  - apply calc_mean_few. rewrite length_fmap in Hi. lia.
Qed.

Lemma moving_average_all_absent_witness :
  Forall (λ r, MA r = Some None)
         (frame_of (ticker_frame sample_raw true 6%Z "BBB")).
Proof.
  apply (moving_average_all_absent sample_raw "BBB" 6).
  - vm_compute. reflexivity.
  - right. vm_compute. lia.
Defined.

(** ** Answers without data *)



Example ticker_without_data_keeps_rows :
  Ticker <$> frame_of (fetch_yfinance_data nodata_provider ["NOD"; "BBB"]
                         1%Z 3%Z true 2%Z).2
  = ["NOD"; "NOD"; "NOD"; "BBB"; "BBB"; "BBB"].
Proof. vm_compute. reflexivity. Qed.


(** ** The columns of the table *)

Section Columns.
Context (raw_data : RawData) (show : bool) (W : Z).
Implicit Types (t : string) (df : DataFrame) (tickers : list string).

Lemma fmap_reset_index {A} (f : Row → A) (g : timestamp → Bar → A) t
    (idx : list timestamp) (bars : list Bar) :
  (∀ d b, f (mkRow d (bar_open b) (bar_high b) (bar_low b) (bar_close b)
               (bar_volume b) t None) = g d b) →
  f <$> reset_index t (idx, bars) = zip_with g idx bars.
Proof.
  intros Hfg. unfold reset_index. simpl. revert bars.
  induction idx as [|d idx IH]; intros [|b bars]; try done.
  cbn. by rewrite Hfg, IH.
Qed.

Lemma fmap_assign_MA {A} (f : Row → A) df (ma : list cell) :
  (∀ r m, f (set_MA r m) = f r) → length ma = length df →
  f <$> assign_MA df ma = f <$> df.
Proof.
  intros Hf. revert ma.
  induction df as [|r df IH]; intros [|m ma] Hlen; try done.
  cbn. rewrite Hf. f_equal. apply IH. simpl in Hlen. lia.
Qed.

Lemma zip_with_dates (idx : list timestamp) (bars : list Bar) :
  zip_with (λ d _, d) idx bars = take (length bars) idx.
Proof.
  revert bars. induction idx as [|d idx IH]; intros [|b bars]; try done.
  cbn. by rewrite IH.
Qed.

Lemma zip_with_bars {A} (h : Bar → A) (idx : list timestamp) (bars : list Bar) :
  zip_with (λ _ b, h b) idx bars = h <$> take (length idx) bars.
Proof.
  revert bars. induction idx as [|d idx IH]; intros [|b bars]; try done.
  cbn. by rewrite IH.
Qed.

Lemma zip_with_ticker t (idx : list timestamp) (bars : list Bar) :
  zip_with (λ _ _, t) idx bars = replicate (length (take (length idx) bars)) t.
Proof.
  revert bars. induction idx as [|d idx IH]; intros [|b bars]; try done.
  cbn. by rewrite IH.
Qed.

(** A column of a frame: the same column of the frame before the MA. *)
Lemma ticker_frame_column {A} (f : Row → A) t df :
  (∀ r m, f (set_MA r m) = f r) →
  ticker_frame raw_data show W t = Ok df →
  ∃ bars, rd_columns raw_data !! t = Some bars
          ∧ f <$> df = f <$> reset_index t (rd_index raw_data, bars).
Proof.
  intros Hf Hdf. apply ticker_frame_Ok in Hdf as (bars & Hbars & Hdf).
  exists bars. split; [done|]. simpl in Hdf. destruct show.
  - destruct Hdf as [_ ->]. apply fmap_assign_MA; [done|].
    by rewrite length_rolling_mean, length_fmap.
  - by subst df.
Qed.

Lemma column_concat_loaded {A} (f : Row → A) (col : string → list A) tickers :
  (∀ t df, ticker_frame raw_data show W t = Ok df → f <$> df = col t) →
  (∀ t e, ticker_frame raw_data show W t = Raise e → col t = []) →
  f <$> concat (loaded raw_data show W tickers) = tickers ≫= col.
Proof.
  intros Hok Hraise. induction tickers as [|t tickers IH]; [done|].
  rewrite bind_cons, <- IH.
  destruct (ticker_frame raw_data show W t) as [df|err] eqn:Hdf.
  - rewrite (loaded_cons_Ok _ _ _ _ _ _ Hdf). cbn [concat].
    by rewrite fmap_app, (Hok _ _ Hdf).
  - by rewrite (loaded_cons_Raise _ _ _ _ _ _ Hdf), (Hraise _ _ Hdf).
Qed.

(** When something loads, a ticker whose body raises has no entry. *)
Lemma Raise_absent tickers t e :
  loaded raw_data show W tickers ≠ [] →
  ticker_frame raw_data show W t = Raise e →
  rd_columns raw_data !! t = None.
Proof.
  intros Hne Hdf. apply ticker_frame_Raise in Hdf as [Hnone|[Hshow HW]]; [done|].
  by rewrite loaded_refused_window in Hne.
Qed.

Lemma bars_column {A} (f : Row → A) (h : Bar → A) tickers :
  (∀ r m, f (set_MA r m) = f r) →
  (∀ t d b, f (mkRow d (bar_open b) (bar_high b) (bar_low b) (bar_close b)
                 (bar_volume b) t None) = h b) →
  loaded raw_data show W tickers ≠ [] →
  f <$> concat (loaded raw_data show W tickers)
  = tickers ≫= (λ t, h <$> answered_bars raw_data t).
Proof.
  intros Hf Hh Hne. apply column_concat_loaded.
  - intros t df Hdf.
    destruct (ticker_frame_column f t df Hf Hdf) as (bars & Hbars & ->).
    unfold answered_bars. rewrite Hbars.
    rewrite (fmap_reset_index f (λ _ b, h b)) by (intros; apply Hh).
    apply zip_with_bars.
  - intros t e Hdf. unfold answered_bars.
    by rewrite (Raise_absent _ _ _ Hne Hdf).
Qed.

Lemma dates_column tickers :
  loaded raw_data show W tickers ≠ [] →
  Date <$> concat (loaded raw_data show W tickers)
  = tickers ≫= answered_dates raw_data.
Proof.
  intros Hne. apply column_concat_loaded.
  - intros t df Hdf.
    destruct (ticker_frame_column Date t df ltac:(done) Hdf) as (bars & Hbars & ->).
    unfold answered_dates. rewrite Hbars.
    rewrite (fmap_reset_index Date (λ d _, d)) by done.
    apply zip_with_dates.
  - intros t e Hdf. unfold answered_dates.
    by rewrite (Raise_absent _ _ _ Hne Hdf).
Qed.

Lemma tickers_column tickers :
  loaded raw_data show W tickers ≠ [] →
  Ticker <$> concat (loaded raw_data show W tickers)
  = tickers ≫= (λ t, replicate (length (answered_bars raw_data t)) t).
Proof.
  intros Hne. apply column_concat_loaded.
  - intros t df Hdf.
    destruct (ticker_frame_column Ticker t df ltac:(done) Hdf)
      as (bars & Hbars & ->).
    unfold answered_bars. rewrite Hbars.
    rewrite (fmap_reset_index Ticker (λ _ _, t)) by done.
    apply zip_with_ticker.
  - intros t e Hdf. unfold answered_bars.
    by rewrite (Raise_absent _ _ _ Hne Hdf).
Qed.

Lemma MA_cells_loaded r tickers :
  r ∈ concat (loaded raw_data show W tickers) →
  is_Some (MA r) ↔ show = true.
Proof.
  intros Hr.
  apply elem_of_table in Hr as (df & bars & i & Hin & Hbars & Hdf & Hi).
  by destruct (ticker_frame_row _ _ _ _ _ _ _ _ Hbars Hdf Hi)
    as (d & b & _ & _ & _ & HMA).
Qed.
End Columns.

Lemma fetch_loop_ext (raw_data raw_data' : RawData) (show : bool) (W : Z)
    (tickers : list string) (df_list : list DataFrame) :
  (∀ t, t ∈ tickers →
        ticker_frame raw_data' show W t = ticker_frame raw_data show W t) →
  fetch_loop raw_data' show W tickers df_list
  = fetch_loop raw_data show W tickers df_list.
Proof.
  revert df_list. induction tickers as [|t tickers IH]; intros df_list Hsame;
    [done|].
  cbn [fetch_loop]. rewrite (Hsame t) by left.
  destruct (ticker_frame raw_data show W t).
  - apply IH. intros u Hu. apply Hsame. by right.
  - rewrite IH; [done|]. intros u Hu. apply Hsame. by right.
Qed.

(** C7. Two runs on identical inputs against an identical provider
    response have identical outcomes: the same warnings and the same table
    or exception.  The same holds for two responses that merely agree on
    the date index and on the requested tickers' columns.  And the table
    both produce is fixed by the response, column by column and in order:
    for each requested ticker in request order, one row per dated bar of
    the ticker's entry (none without entry), carrying the ticker, the
    date, and the bar's open, high, low, close and volume, with an MA cell
    exactly when the moving average is on. *)
Theorem aggregation_deterministic (yf_download yf_download' : provider)
    (tickers : list string) (s e : timestamp) (show : bool) (W : Z) :
  (yf_download tickers s e = yf_download' tickers s e →
   fetch_yfinance_data yf_download tickers s e show W
   = fetch_yfinance_data yf_download' tickers s e show W)
  ∧ (∀ raw_data raw_data',
       yf_download tickers s e = Ok raw_data →
       yf_download' tickers s e = Ok raw_data' →
       rd_index raw_data' = rd_index raw_data →
       (∀ t, t ∈ tickers →
             rd_columns raw_data' !! t = rd_columns raw_data !! t) →
       fetch_yfinance_data yf_download tickers s e show W
       = fetch_yfinance_data yf_download' tickers s e show W)
  ∧ (∀ raw_data table,
       yf_download tickers s e = Ok raw_data →
       (fetch_yfinance_data yf_download tickers s e show W).2 = Ok table →
       Ticker <$> table
       = tickers ≫= (λ t, replicate (length (answered_bars raw_data t)) t)
       ∧ Date <$> table = tickers ≫= answered_dates raw_data
       ∧ Open <$> table = tickers ≫= (λ t, bar_open <$> answered_bars raw_data t)
       ∧ High <$> table = tickers ≫= (λ t, bar_high <$> answered_bars raw_data t)
       ∧ Low <$> table = tickers ≫= (λ t, bar_low <$> answered_bars raw_data t)
       ∧ Close <$> table = tickers ≫= (λ t, bar_close <$> answered_bars raw_data t)
       ∧ Volume <$> table
         = tickers ≫= (λ t, bar_volume <$> answered_bars raw_data t)
       ∧ Forall (λ r, is_Some (MA r) ↔ show = true) table).
Proof.
  split; [|split].
  - intros Hsame. unfold fetch_yfinance_data. by rewrite Hsame.
  - intros raw_data raw_data' Hraw Hraw' Hidx Hcols.
    unfold fetch_yfinance_data. rewrite Hraw, Hraw'.
    rewrite (fetch_loop_ext raw_data raw_data'); [done|].
    intros t Ht. apply ticker_frame_getitem. unfold getitem.
    by rewrite Hidx, (Hcols t Ht).
  - intros raw_data table Hraw Htable.
    rewrite (fetch_yfinance_data_answered _ _ _ _ show W _ Hraw) in Htable.
    simpl in Htable. apply pd_concat_Ok in Htable as [Hne ->].
    split; [by apply tickers_column|].
    split; [by apply dates_column|].
    split; [by apply bars_column|].
    split; [by apply bars_column|].
    split; [by apply bars_column|].
    split; [by apply bars_column|].
    split; [by apply bars_column|].
    apply Forall_forall. intros r Hr. by apply (MA_cells_loaded _ _ _ _ _ Hr).
Qed.

Lemma aggregation_deterministic_witness :
  fetch_yfinance_data sample_provider ["AAA"; "BBB"] 1%Z 5%Z true 2%Z
  = fetch_yfinance_data strict_provider ["AAA"; "BBB"] 1%Z 5%Z true 2%Z
  ∧ Close <$> sample_table
    = ["AAA"; "ZZZ"; "BBB"] ≫= (λ t, bar_close <$> answered_bars sample_raw t).
Proof.
  split.
  - apply (proj1 (aggregation_deterministic sample_provider strict_provider
                    ["AAA"; "BBB"] 1%Z 5%Z true 2%Z)).
    reflexivity.
  - apply (proj2 (proj2 (aggregation_deterministic sample_provider
                           sample_provider ["AAA"; "ZZZ"; "BBB"]
                           1%Z 5%Z true 2%Z)) sample_raw sample_table eq_refl).
    vm_compute. reflexivity.
Defined.

(** ** What a run shows *)

Lemma run_Ok (yf_download : provider) (inp : sidebar) (evs : list event)
    (table : DataFrame) :
  let tickers := parse_tickers (tickers_input inp) in
  fetch_yfinance_data yf_download tickers (start_date inp) (end_date inp)
    (show_ma inp) (ma_window inp) = (evs, Ok table) →
  run yf_download inp
  = let shown := evs ++ show_metrics tickers table
                     ++ [st_markdown "---"; st_selectbox tickers] in
    match Stocks_plot_graphs (table_label yf_download tickers inp) table
            (show_ma inp) (pick inp tickers) with
    | Raise e => (shown ++ [st_error e], table)
    | Ok charts =>
        (shown ++ charts ++ [st_markdown "### Exportar dados"]
               ++ export_data table, table)
    end.
Proof. intros tickers Hout. unfold run. fold tickers. by rewrite Hout. Qed.

Lemma filter_before_plot (P : event → bool) (evs : list event)
    (tickers : list string) (table : DataFrame) :
  (∀ ev, is_warning ev = true ∨ is_metric ev = true → P ev = false) →
  P (st_markdown "---") = false → P (st_selectbox tickers) = false →
  Forall (λ ev, is_warning ev = true) evs →
  filter (λ ev, P ev = true)
         (evs ++ show_metrics tickers table
              ++ [st_markdown "---"; st_selectbox tickers]) = [].
Proof.
  intros HP Hm Hs Hw. rewrite !filter_app.
  rewrite (filter_none _ evs), (filter_none _ (show_metrics tickers table)).
  - rewrite !filter_cons, Hm, Hs. done.
  - eapply Forall_impl; [apply show_metrics_events|].
    intros ev Hev. simpl. by rewrite (HP ev Hev).
  - eapply Forall_impl; [exact Hw|].
    intros ev Hev. simpl. rewrite (HP ev); [done|by left].
Qed.

(** X16. What a run shows after the aggregation returned a table.  If
    the table's index column is labelled [Date], the run shows no error,
    keeps the table, draws exactly the two charts of the picked ticker and
    offers exactly the two downloads of the whole table.  If it is not (the
    provider's index had another name or none), [plot_graphs] raises on
    [df["Date"]]: the metrics and warnings shown so far stay, the run ends
    with that one [KeyError] as its error message, and no chart or download
    is shown. *)
Theorem run_after_aggregation (yf_download : provider) (inp : sidebar)
    (raw_data : RawData) (table : DataFrame) :
  let tickers := parse_tickers (tickers_input inp) in
  let out := fetch_yfinance_data yf_download tickers (start_date inp)
               (end_date inp) (show_ma inp) (ma_window inp) in
  let shown := (run yf_download inp).1 in
  yf_download tickers (start_date inp) (end_date inp) = Ok raw_data →
  out.2 = Ok table →
  (run yf_download inp).2 = table
  ∧ (index_label raw_data = "Date" →
     filter (λ ev, is_error ev = true) shown = []
     ∧ filter (λ ev, is_chart ev = true) shown
       = plot_graphs table (show_ma inp) (pick inp tickers)
     ∧ filter (λ ev, is_download ev = true) shown = export_data table)
  ∧ (index_label raw_data ≠ "Date" →
     shown = out.1 ++ show_metrics tickers table
                   ++ [st_markdown "---"; st_selectbox tickers]
                   ++ [st_error (KeyError "Date")]
     ∧ filter (λ ev, is_error ev = true) shown = [st_error (KeyError "Date")]
     ∧ filter (λ ev, is_chart ev = true) shown = []
     ∧ filter (λ ev, is_download ev = true) shown = []).
Proof.
  intros tickers out shown Hraw Htable.
  pose proof (fetch_events_warnings yf_download tickers (start_date inp)
                (end_date inp) (show_ma inp) (ma_window inp)) as Hw.
  fold out in Hw.
  assert (Hout : out = (out.1, Ok table))
    by (rewrite <- Htable; apply surjective_pairing).
  pose proof (run_Ok yf_download inp out.1 table Hout) as Hrun.
  cbn zeta in Hrun. fold tickers in Hrun.
  assert (Hlabel : table_label yf_download tickers inp = index_label raw_data)
    by (unfold table_label; by rewrite Hraw).
  rewrite Hlabel in Hrun. unfold Stocks_plot_graphs in Hrun.
  assert (Hpre : ∀ P : event → bool,
            (∀ ev, is_warning ev = true ∨ is_metric ev = true → P ev = false) →
            P (st_markdown "---") = false →
            P (st_selectbox tickers) = false →
            filter (λ ev, P ev = true)
              (out.1 ++ show_metrics tickers table
                     ++ [st_markdown "---"; st_selectbox tickers]) = []).
  { intros P HP Hm Hs. by apply filter_before_plot. }
  destruct (String.eqb_spec (index_label raw_data) "Date") as [Hdate|Hother].
  - split; [by unfold shown; rewrite Hrun|]. split; [|done].
    intros _. unfold shown. rewrite Hrun. cbn [fst].
    rewrite !app_assoc, <- (app_assoc out.1), <- !app_assoc.
    rewrite !(app_assoc out.1), !(app_assoc (out.1 ++ _)).
    rewrite !(filter_app _ (_ ++ [st_markdown "---"; st_selectbox tickers])).
    rewrite <- !app_assoc.
    rewrite (Hpre is_error), (Hpre is_chart), (Hpre is_download);
      try done; try (by intros [] [?|?]).
  - split; [by unfold shown; rewrite Hrun|]. split; [done|].
    intros _. unfold shown. rewrite Hrun. cbn [fst].
    split; [by rewrite <- !app_assoc|].
    rewrite <- !app_assoc, !(app_assoc out.1), !(app_assoc (out.1 ++ _)).
    rewrite !(filter_app _ (_ ++ [st_markdown "---"; st_selectbox tickers])).
    rewrite <- !app_assoc.
    rewrite (Hpre is_error), (Hpre is_chart), (Hpre is_download);
      try done; try (by intros [] [?|?]).
Qed.

Lemma run_after_aggregation_witness :
  filter (λ ev, is_error ev = true)
         (run (norows_provider None) (sample_sidebar "aaa,bbb")).1
  = [st_error (KeyError "Date")]
  ∧ filter (λ ev, is_error ev = true)
           (run sample_provider (sample_sidebar "aaa,zzz,bbb")).1 = [].
Proof.
  split.
  - apply (proj2 (proj2 (run_after_aggregation (norows_provider None)
                           (sample_sidebar "aaa,bbb") (norows_raw None) []
                           eq_refl ltac:(vm_compute; reflexivity)))).
    vm_compute. discriminate.
  - apply (proj1 (proj2 (run_after_aggregation sample_provider
                           (sample_sidebar "aaa,zzz,bbb") sample_raw sample_table
                           eq_refl ltac:(vm_compute; reflexivity)))).
    reflexivity.
Defined.

Example run_on_unnamed_empty_answer :
  run (norows_provider None) (sample_sidebar "aaa,bbb")
  = ([st_warning "Preço não encontrado para AAA.";
      st_warning "Preço não encontrado para BBB.";
      st_markdown "---"; st_selectbox ["AAA"; "BBB"];
      st_error (KeyError "Date")], []).
Proof. vm_compute. reflexivity. Qed.

Example window_beyond_int64_loads_nothing :
  fetch_yfinance_data sample_provider ["AAA"; "BBB"] 1%Z 5%Z true int64_limit
  = ([load_warning "AAA"; load_warning "BBB"],
     Raise (ValueError "No objects to concatenate")).
Proof. vm_compute. reflexivity. Qed.

(** X18. The moving average never looks ahead: its cell at row [i]
    depends only on the closes up to row [i].  Two frames (of any tickers,
    from any answers) computed with the same window whose Close columns
    agree on rows [0 .. i] have the same MA cell at row [i], whatever
    follows. *)
Theorem moving_average_never_looks_ahead (raw_data raw_data' : RawData)
    (ticker ticker' : string) (W : nat) (df df' : DataFrame) (i : nat)
    (r r' : Row) :
  ticker_frame raw_data true (Z.of_nat W) ticker = Ok df →
  ticker_frame raw_data' true (Z.of_nat W) ticker' = Ok df' →
  df !! i = Some r →
  df' !! i = Some r' →
  take (S i) (Close <$> df') = take (S i) (Close <$> df) →
  MA r' = MA r.
Proof.
  intros Hdf Hdf' Hr Hr' Hagree.
  rewrite (frame_MA_lookup _ _ _ _ _ _ Hdf Hr),
    (frame_MA_lookup _ _ _ _ _ _ Hdf' Hr').
  by rewrite <- (window_take W i (Close <$> df')), Hagree, window_take.
Qed.

Lemma moving_average_never_looks_ahead_witness :
  MA <$> frame_of (ticker_frame nodata_raw true 2%Z "BBB") !! 2
  = MA <$> sample_BBB !! 2.
Proof.
  destruct (sample_BBB !! 2) as [r|] eqn:Hr; [|vm_compute in Hr; discriminate Hr].
  destruct (frame_of (ticker_frame nodata_raw true 2%Z "BBB") !! 2)
    as [r'|] eqn:Hr'; [|vm_compute in Hr'; discriminate Hr'].
  simpl. f_equal.
  apply (moving_average_never_looks_ahead sample_raw nodata_raw "BBB" "BBB" 2
           sample_BBB (frame_of (ticker_frame nodata_raw true 2%Z "BBB")) 2 r r');
    [vm_compute; reflexivity | vm_compute; reflexivity | exact Hr | exact Hr' |].
  vm_compute. reflexivity.
Defined.
